(** * Ameryd: a shallow embedding of the media gallery core

    Sources embedded here:
    - [src/ameryd_app/sync.py]: [load_events], [save_events],
      [generate_thumbnail] (the older still-image generator) and
      [sync_events] (the Reconciler);
    - [src/utils.py]: the extension sets, [generate_thumbnail] (with
      [ImageOps.exif_transpose]) and [generate_video_thumbnail];
    - [src/app.py]: [get_event_media_list], [event_api] (pagination and
      access check), [media_file] and [thumb_file]; [check_auth_sync],
      [login] and [logout]; [slugify]; [event_page]; the administration
      views [api_create_event], [api_update_event] and [api_delete_event];
      the media views [api_upload] and [api_delete], with
      [generate_thumb_for_any] of [src/utils.py] and werkzeug's
      [secure_filename].

    File names are ASCII strings; Python's [str.lower] is modelled on ASCII.
    The filesystem is modelled at the granularity the Reconciler looks at:
    the entries of the data root, and for each event folder its [Media] and
    [Thumbnail] sub-directories.  Effects whose outcome depends on file
    contents or permissions (image decoding, [os.remove], [os.makedirs],
    writing [events.json]) are decided by an oracle record. *)

From Stdlib Require Import String Ascii List Bool ZArith Lia QArith Qround.
Import ListNotations.
Open Scope string_scope.
Open Scope Z_scope.
Open Scope list_scope.

(** ** Python string helpers *)

Module Py.

(** [str.lower] on ASCII characters. *)
Definition lower_ascii (c : ascii) : ascii :=
  let n := nat_of_ascii c in
  if andb (Nat.leb 65 n) (Nat.leb n 90) then ascii_of_nat (n + 32) else c.

Fixpoint lower (s : string) : string :=
  match s with
  | EmptyString => EmptyString
  | String c s' => String (lower_ascii c) (lower s')
  end.

(** [s.replace(a, b)] for single characters. *)
Fixpoint replace_char (a b : ascii) (s : string) : string :=
  match s with
  | EmptyString => EmptyString
  | String c s' =>
      String (if Ascii.eqb c a then b else c) (replace_char a b s')
  end.

(** [x in xs] for a Python set or list of strings. *)
Definition mem (x : string) (xs : list string) : bool :=
  existsb (String.eqb x) xs.

(** Splits [p] at its last ['.']: [Some (root, ext)] with [p = root ++ ext]
    and [ext] starting with the dot. *)
Fixpoint split_last_dot (p : string) : option (string * string) :=
  match p with
  | EmptyString => None
  | String c p' =>
      match split_last_dot p' with
      | Some (r, e) => Some (String c r, e)
      | None => if Ascii.eqb c "." then Some (EmptyString, p) else None
      end
  end.

Fixpoint all_dots (s : string) : bool :=
  match s with
  | EmptyString => true
  | String c s' => Ascii.eqb c "." && all_dots s'
  end.

(** [os.path.splitext] for a name without a separator ([posixpath]):
    the last dot starts the extension, unless everything before it is dots
    (leading dots of a hidden file do not start an extension). *)
Definition splitext (p : string) : string * string :=
  match split_last_dot p with
  | Some (r, e) => if all_dots r then (p, EmptyString) else (r, e)
  | None => (p, EmptyString)
  end.

(** Python slicing [l[i:j]] with step 1 ([PySlice_AdjustIndices]). *)
Definition norm_index (i n : Z) : Z :=
  if i <? 0 then Z.max 0 (i + n) else Z.min i n.

Definition slice {A} (l : list A) (i j : Z) : list A :=
  let n := Z.of_nat (length l) in
  let s := norm_index i n in
  let e := norm_index j n in
  firstn (Z.to_nat (e - s)) (skipn (Z.to_nat s) l).

End Py.

(** ** Extension sets *)

(** [IMAGE_EXTS] is the same in [sync.py] and [utils.py]. *)
Definition IMAGE_EXTS : list string :=
  [".jpg"; ".jpeg"; ".png"; ".gif"; ".bmp"; ".webp"].

(** [VIDEO_EXTS] of [src/ameryd_app/sync.py]. *)
Definition SYNC_VIDEO_EXTS : list string :=
  [".mp4"; ".mov"; ".avi"; ".webm"; ".mkv"].

(** [VIDEO_EXTS] of [src/utils.py], imported by [app.py]. *)
Definition VIDEO_EXTS : list string :=
  [".mp4"; ".mov"; ".avi"; ".webm"; ".mkv"; ".3gp"].

(** ** Data model *)

(** An event record of [events.json].  A record written without a
    ["password"] key (see [api_create_event]) has [password = None]. *)
Record event := {
  name : string;
  description : string;
  date : string;
  folder : string;
  hidden : bool;
  password : option string
}.

(** The manifest: a Python dict from event key to record, in insertion
    order. *)
Definition manifest := list (string * event).

Fixpoint dict_get (k : string) (d : manifest) : option event :=
  match d with
  | [] => None
  | (k', v) :: d' => if String.eqb k k' then Some v else dict_get k d'
  end.

(** [d[k] = v]: an existing key keeps its position, a new key goes last. *)
Fixpoint dict_set (k : string) (v : event) (d : manifest) : manifest :=
  match d with
  | [] => [(k, v)]
  | (k', v') :: d' =>
      if String.eqb k k' then (k', v) :: d' else (k', v') :: dict_set k v d'
  end.

(** [del d[k]]. *)
Fixpoint dict_del (k : string) (d : manifest) : manifest :=
  match d with
  | [] => []
  | (k', v') :: d' => if String.eqb k k' then d' else (k', v') :: dict_del k d'
  end.

(** What [<event folder>/Thumbnail] is on disk. *)
Inductive tnode :=
| TAbsent
| TFile
| TDir (names : list string).

(** An entry of the data root: a plain file, or a directory whose [Media]
    sub-directory lists [media] ([None] when [Media] is not a directory)
    and whose [Thumbnail] is [thumbs]. *)
Inductive node :=
| FileNode
| DirNode (media : option (list string)) (thumbs : tnode).

(** The data root.  [entries] are the entries [os.listdir(DATA_DIR)]
    returns, in that order, apart from [events.json]; [events_file] is the
    parsed [events.json] ([None] when absent or unparsable);
    [global_thumbs] lists the reserved [data/Thumbnail] directory. *)
Record fsys := {
  data_isdir : bool;
  events_file : option manifest;
  entries : list (string * node);
  global_thumbs : list string
}.

Fixpoint lookup_node (n : string) (es : list (string * node)) : option node :=
  match es with
  | [] => None
  | (n', nd) :: es' => if String.eqb n n' then Some nd else lookup_node n es'
  end.

Definition get_node (f : fsys) (n : string) : option node :=
  lookup_node n (entries f).

Fixpoint update_node (n : string) (nd : node) (es : list (string * node))
  : list (string * node) :=
  match es with
  | [] => []
  | (n', nd') :: es' =>
      if String.eqb n n' then (n', nd) :: es' else (n', nd') :: update_node n nd es'
  end.

Definition set_node (f : fsys) (n : string) (nd : node) : fsys :=
  {| data_isdir := data_isdir f; events_file := events_file f;
     entries := update_node n nd (entries f); global_thumbs := global_thumbs f |}.

Definition tnames (t : tnode) : list string :=
  match t with TDir l => l | _ => [] end.

(** [os.path.exists(os.path.join(thumb_dir, x))]. *)
Definition tnode_has (t : tnode) (x : string) : bool := Py.mem x (tnames t).

(** ** The Media Lister ([app.py], [get_event_media_list]) *)

Inductive thumb_route := RouteThumbFile | RouteGlobalThumb.

Record media_item := {
  filename : string;
  thumb_filename : string;
  thumb_route_of : thumb_route
}.

(** [sorted(...)]: Python orders strings by code point, as [String.leb]. *)
Fixpoint insert_sorted (x : string) (l : list string) : list string :=
  match l with
  | [] => [x]
  | y :: l' => if String.leb x y then x :: l else y :: insert_sorted x l'
  end.

Fixpoint sort_strings (l : list string) : list string :=
  match l with
  | [] => []
  | x :: l' => insert_sorted x (sort_strings l')
  end.

Definition lister_item (th : tnode) (fname : string) : option media_item :=
  let ext := Py.lower (snd (Py.splitext fname)) in
  if Py.mem ext IMAGE_EXTS || Py.mem ext VIDEO_EXTS then
    let thumb_fname := (fname ++ ".webp")%string in
    if tnode_has th thumb_fname then
      Some {| filename := fname; thumb_filename := thumb_fname;
              thumb_route_of := RouteThumbFile |}
    else
      Some {| filename := fname;
              thumb_filename := if Py.mem ext IMAGE_EXTS then "image.webp" else "video.webp";
              thumb_route_of := RouteGlobalThumb |}
  else None.

Fixpoint lister_items (th : tnode) (files : list string) : list media_item :=
  match files with
  | [] => []
  | fname :: rest =>
      match lister_item th fname with
      | Some it => it :: lister_items th rest
      | None => lister_items th rest
      end
  end.

Definition get_event_media_list (f : fsys) (ev : event) : list media_item :=
  match get_node f (folder ev) with
  | Some (DirNode (Some files) th) => lister_items th (sort_strings files)
  | _ => []
  end.

(** ** The paginated listing endpoint ([app.py], [event_api]) *)

Module Api.

Definition PAGE_SIZE : Z := 20.

(** Lines 202-208: [(chunk, has_more, next_page)]. *)
Definition paginate {A} (all_media : list A) (page : Z)
  : list A * bool * option Z :=
  let start := (page - 1) * PAGE_SIZE in
  let end_ := start + PAGE_SIZE in
  let chunk := Py.slice all_media start end_ in
  let has_more := end_ <? Z.of_nat (length all_media) in
  (chunk, has_more, if has_more then Some (page + 1) else None).


(** [ev.get('password')] is truthy. *)
Definition locked (ev : event) : bool :=
  match password ev with
  | Some p => negb (String.eqb p "")
  | None => false
  end.

(** [ev.get('password') and key != ev['password'] and not is_admin]. *)
Definition rejected (ev : event) (key : string) (is_admin : bool) : bool :=
  match password ev with
  | Some p => negb (String.eqb p "") && negb (String.eqb key p) && negb is_admin
  | None => false
  end.

Inductive api_response :=
| ApiNotFound                                  (* 404 *)
| ApiUnauthorized                              (* 401 *)
| ApiPage (media : list media_item) (has_more : bool) (next_page : option Z).

(** [event_api]: [key] and [page] are the parsed query arguments. *)
Definition event_api (f : fsys) (events : manifest) (event_path key : string)
  (is_admin : bool) (page : Z) : api_response :=
  match dict_get event_path events with
  | None => ApiNotFound
  | Some ev =>
      if rejected ev key is_admin then ApiUnauthorized
      else
        let '(chunk, has_more, next_page) := paginate (get_event_media_list f ev) page in
        ApiPage chunk has_more next_page
  end.

(** Where a file is sent from. *)
Inductive location := LMedia (folder : string) | LThumb (folder : string) | LGlobal.

Inductive file_response :=
| Abort (code : Z)
| Send (from : location) (file : string).

(** [send_from_directory(GLOBAL_THUMB_DIR, filename)]. *)
Definition global_thumb (f : fsys) (fname : string) : file_response :=
  if Py.mem fname (global_thumbs f) then Send LGlobal fname else Abort 404.

Definition media_file (f : fsys) (events : manifest) (event_path fname key : string)
  (is_admin : bool) : file_response :=
  match dict_get event_path events with
  | None => Abort 404
  | Some ev =>
      if rejected ev key is_admin then Abort 403
      else
        match get_node f (folder ev) with
        | Some (DirNode (Some files) _) =>
            if Py.mem fname files then Send (LMedia (folder ev)) fname else Abort 404
        | _ => Abort 404
        end
  end.

Definition thumb_file (f : fsys) (events : manifest) (event_path fname key : string)
  (is_admin : bool) : file_response :=
  match dict_get event_path events with
  | None => Abort 404
  | Some ev =>
      if rejected ev key is_admin then Abort 403
      else
        match get_node f (folder ev) with
        | Some (DirNode _ (TDir l)) =>
            if Py.mem fname l then Send (LThumb (folder ev)) fname
            else global_thumb f fname
        | _ => global_thumb f fname
        end
  end.

End Api.

(** ** The Reconciler ([src/ameryd_app/sync.py]) *)

Module Sync.

(** Outcomes of the effects that depend on file contents or permissions. *)
Record oracle := {
  (** [generate_thumbnail(Media/fname, ...)] succeeds, given a writable
      [Thumbnail] directory (Pillow removes a half-written file on failure) *)
  gen_ok : string -> string -> bool;
  (** [os.remove(Thumbnail/tname)] succeeds in the given event folder *)
  rm_ok : string -> string -> bool;
  (** [os.makedirs(<folder>/Thumbnail)] succeeds *)
  mkdir_ok : string -> bool;
  (** writing [events.json] succeeds *)
  save_ok : bool
}.

(** The lines [sync_events] prints. *)
Inductive log_entry :=
| LScan
| LDataMissing
| LNewEvent (item : string)
| LFolderMissing (folder key : string)
| LSaved
| LSaveError
| LCreatedThumbDir (folder : string)
| LGen (folder fname : string) (ok : bool)       (* "Missing thumbnail ..." and its outcome *)
| LRemoved (folder tname : string) (ok : bool)   (* "Removing orphaned ..." and its outcome *)
| LComplete.

Record st := { fs : fsys; log : list log_entry }.

Inductive exn := OSError (path : string).

Inductive outcome :=
| Done (events : manifest) (s : st)   (* ran to "Sync complete." *)
| Stopped (s : st)                    (* "Data directory not found!" *)
| Raised (e : exn) (s : st).          (* an exception escaped *)

Definition out_st (r : outcome) : st :=
  match r with Done _ s | Stopped s | Raised _ s => s end.

Definition emit (s : st) (e : log_entry) : st := {| fs := fs s; log := log s ++ [e] |}.

(** [load_events]: [{}] when the file is absent or fails to parse. *)
Definition load_events (f : fsys) : manifest :=
  match events_file f with Some m => m | None => [] end.

Definition save_events (o : oracle) (events : manifest) (s : st) : st :=
  if save_ok o then
    {| fs := {| data_isdir := data_isdir (fs s); events_file := Some events;
                entries := entries (fs s); global_thumbs := global_thumbs (fs s) |};
       log := log s ++ [LSaved] |}
  else emit s LSaveError.

(** [item.lower().replace(" ", "-")]. *)
Definition event_key (item : string) : string :=
  Py.replace_char " " "-" (Py.lower item).

Definition default_event (item : string) : event :=
  {| name := item; description := "Auto-discovered event"; date := "2025-01-01";
     folder := item; hidden := true; password := Some "" |}.

Definition is_dir (nd : node) : bool :=
  match nd with DirNode _ _ => true | FileNode => false end.

(** Step 1: discover new event folders. *)
Fixpoint discover (items : list (string * node)) (events : manifest)
  (existing : list string) (s : st) : manifest * st :=
  match items with
  | [] => (events, s)
  | (item, nd) :: rest =>
      if is_dir nd && negb (String.eqb item "Thumbnail") then
        if Py.mem item existing then discover rest events existing s
        else discover rest (dict_set (event_key item) (default_event item) events)
               (existing ++ [item]) (emit s (LNewEvent item))
      else discover rest events existing s
  end.

(** [os.path.exists(os.path.join(DATA_DIR, folder))]. *)
Definition folder_exists (f : fsys) (fd : string) : bool :=
  match get_node f fd with Some _ => true | None => false end.

(** Step 2: the keys whose folder is missing, then [del events[key]]. *)
Fixpoint missing_keys (f : fsys) (events : manifest) (s : st) : list string * st :=
  match events with
  | [] => ([], s)
  | (k, ev) :: rest =>
      if folder_exists f (folder ev) then missing_keys f rest s
      else let '(ks, s') := missing_keys f rest (emit s (LFolderMissing (folder ev) k)) in
           (k :: ks, s')
  end.

Definition remove_keys (ks : list string) (events : manifest) : manifest :=
  fold_left (fun d k => dict_del k d) ks events.

(** The base names of recognised media files ([valid_media_bases]). *)
Definition sync_recognized (fname : string) : bool :=
  let ext := Py.lower (snd (Py.splitext fname)) in
  Py.mem ext IMAGE_EXTS || Py.mem ext SYNC_VIDEO_EXTS.

Definition valid_media_bases (media_files : list string) : list string :=
  map (fun fname => fst (Py.splitext fname)) (filter sync_recognized media_files).

Definition is_image (fname : string) : bool :=
  Py.mem (Py.lower (snd (Py.splitext fname))) IMAGE_EXTS.

Definition thumb_name (fname : string) : string := (fst (Py.splitext fname) ++ ".webp")%string.

Definition tnode_add (t : tnode) (x : string) : tnode :=
  match t with TDir l => TDir (l ++ [x]) | _ => t end.

Definition tnode_remove (t : tnode) (x : string) : tnode :=
  match t with TDir l => TDir (filter (fun y => negb (String.eqb y x)) l) | _ => t end.

Definition is_tdir (t : tnode) : bool := match t with TDir _ => true | _ => false end.

(** Step 3a: generate missing thumbnails (images only). *)
Fixpoint gen_missing (o : oracle) (fd : string) (media_files : list string)
  (th : tnode) (lg : list log_entry) : tnode * list log_entry :=
  match media_files with
  | [] => (th, lg)
  | fname :: rest =>
      if is_image fname then
        if tnode_has th (thumb_name fname) then gen_missing o fd rest th lg
        else
          let ok := gen_ok o fd fname && is_tdir th in
          gen_missing o fd rest (if ok then tnode_add th (thumb_name fname) else th)
            (lg ++ [LGen fd fname ok])
      else gen_missing o fd rest th lg
  end.

(** [ext.lower() == '.webp' and base not in valid_media_bases]. *)
Definition orphan (valid : list string) (tname : string) : bool :=
  let '(base, ext) := Py.splitext tname in
  String.eqb (Py.lower ext) ".webp" && negb (Py.mem base valid).

(** Step 3b: remove orphaned thumbnails; an [OSError] is printed. *)
Fixpoint cleanup (o : oracle) (fd : string) (valid : list string)
  (snapshot : list string) (th : tnode) (lg : list log_entry) : tnode * list log_entry :=
  match snapshot with
  | [] => (th, lg)
  | tname :: rest =>
      if orphan valid tname then
        if rm_ok o fd tname then
          cleanup o fd valid rest (tnode_remove th tname) (lg ++ [LRemoved fd tname true])
        else cleanup o fd valid rest th (lg ++ [LRemoved fd tname false])
      else cleanup o fd valid rest th lg
  end.

(** One iteration of the step-3 loop, for the event folder [fd]. *)
Definition process_event (o : oracle) (fd : string) (s : st) : st + (exn * st) :=
  match get_node (fs s) fd with
  | Some (DirNode (Some media_files) th) =>
      let ensured :=
        match th with
        | TAbsent =>
            if mkdir_ok o fd then inl (TDir [], log s ++ [LCreatedThumbDir fd])
            else inr (OSError (fd ++ "/Thumbnail")%string)
        | _ => inl (th, log s)
        end in
      match ensured with
      | inr e => inr (e, s)
      | inl (th1, lg1) =>
          let valid := valid_media_bases media_files in
          let '(th2, lg2) := gen_missing o fd media_files th1 lg1 in
          let '(th3, lg3) :=
            match th2 with
            | TDir l => cleanup o fd valid l th2 lg2
            | _ => (th2, lg2)
            end in
          inl {| fs := set_node (fs s) fd (DirNode (Some media_files) th3); log := lg3 |}
      end
  | _ => inl s
  end.

Fixpoint process_all (o : oracle) (events : manifest) (s : st) : st + (exn * st) :=
  match events with
  | [] => inl s
  | (_, ev) :: rest =>
      match process_event o (folder ev) s with
      | inl s' => process_all o rest s'
      | inr err => inr err
      end
  end.

Definition sync_events (o : oracle) (f : fsys) : outcome :=
  let s0 := {| fs := f; log := [LScan] |} in
  if negb (data_isdir f) then Stopped (emit s0 LDataMissing)
  else
    let events := load_events f in
    let existing := map (fun kv => folder (snd kv)) events in
    let '(events1, s1) := discover (entries f) events existing s0 in
    let '(ks, s2) := missing_keys f events1 s1 in
    let events2 := remove_keys ks events1 in
    let s3 := save_events o events2 s2 in
    match process_all o events2 s3 with
    | inl s4 => Done events2 (emit s4 LComplete)
    | inr (e, s4) => Raised e s4
    end.

End Sync.

(** ** Still-image thumbnail generators *)

Module Thumb.

(** What the generators look at of an opened Pillow image. *)
Record image := {
  mode : string;
  orientation : Z;   (* EXIF tag 0x0112, 1 when absent *)
  width : Z;
  height : Z
}.

(** The Pillow operations a generator performs, in order. *)
Inductive op :=
| OpExifTranspose          (* ImageOps.exif_transpose *)
| OpConvert (to : string)  (* img.convert(...) *)
| OpThumbnail              (* img.thumbnail(THUMB_SIZE) *)
| OpSave (fmt : string) (quality : Z).

(** [ImageOps.exif_transpose]: orientations 5 to 8 are quarter turns. *)
Definition exif_transpose (img : image) : image :=
  if (5 <=? orientation img) && (orientation img <=? 8) then
    {| mode := mode img; orientation := 1; width := height img; height := width img |}
  else {| mode := mode img; orientation := 1; width := width img; height := height img |}.

Definition convert_ops (img : image) : list op :=
  if Py.mem (mode img) ["RGBA"; "P"] then [OpConvert "RGB"] else [].

(** [generate_thumbnail] of [src/utils.py].  [opened] is [Image.open]'s
    result ([None] when it raises); [save_ok] whether [img.save] succeeds.
    Returns the result and the operations performed. *)
Definition utils_generate_thumbnail (opened : option image) (save_ok : bool)
  (quality : Z) : bool * list op :=
  match opened with
  | None => (false, [])
  | Some img =>
      let img1 := exif_transpose img in
      (save_ok, [OpExifTranspose] ++ convert_ops img1 ++ [OpThumbnail; OpSave "WEBP" quality])
  end.

(** [generate_thumbnail] of [src/ameryd_app/sync.py] (quality 80). *)
Definition sync_generate_thumbnail (opened : option image) (save_ok : bool)
  : bool * list op :=
  match opened with
  | None => (false, [])
  | Some img => (save_ok, convert_ops img ++ [OpThumbnail; OpSave "WEBP" 80])
  end.

End Thumb.

(** ** Video thumbnail generator ([src/utils.py], [generate_video_thumbnail]) *)

Module Video.

(** A Python return value: [True], [False], or [None] when the function
    falls off its end. *)
Inductive pyval := PyTrue | PyFalse | PyNone.

Definition truthy (v : pyval) : bool := match v with PyTrue => true | _ => false end.

(** What [cv2.VideoCapture(video_path)] yields: whether it opened, its
    [CAP_PROP_FPS], the frame [cap.read()] returns at a position ([None]
    when [ret] is false), and whether converting and saving a frame
    succeeds. *)
Record capture := {
  opened : bool;
  fps : Q;
  frame_at : Z -> option Z;
  encode_ok : Z -> bool
}.

Inductive vop :=
| VSet (pos : Z)              (* cap.set(cv2.CAP_PROP_POS_FRAMES, pos) *)
| VRead (pos : Z) (ok : bool) (* cap.read() at pos *)
| VRelease                    (* cap.release() *)
| VWrite.                     (* img.save(thumb_path, ...) *)

(** [int(fps)] for a positive [fps] truncates, as [Qfloor]. *)
Definition generate_video_thumbnail (c : capture) : pyval * list vop :=
  if negb (opened c) then (PyFalse, [])
  else
    let '(pos, tr1) :=
      if negb (Qle_bool (fps c) 0) then (Qfloor (fps c), [VSet (Qfloor (fps c))])
      else (0, []) in
    let '(ret, tr2) :=
      match frame_at c pos with
      | Some fr => (Some fr, tr1 ++ [VRead pos true])
      | None =>
          let r0 := frame_at c 0 in
          (r0, tr1 ++ [VRead pos false; VSet 0;
                       VRead 0 (match r0 with Some _ => true | None => false end)])
      end in
    let tr3 := tr2 ++ [VRelease] in
    match ret with
    | Some fr => if encode_ok c fr then (PyTrue, tr3 ++ [VWrite]) else (PyFalse, tr3)
    | None => (PyNone, tr3)
    end.

End Video.

(** ** Character classes and string passes *)

Module Text.

(** The model's strings are ASCII text: every character below 128. *)
Fixpoint ascii_text (s : string) : bool :=
  match s with
  | EmptyString => true
  | String c s' => Nat.ltb (nat_of_ascii c) 128 && ascii_text s'
  end.

Definition in_range (lo hi : nat) (c : ascii) : bool :=
  Nat.leb lo (nat_of_ascii c) && Nat.leb (nat_of_ascii c) hi.

(** [str.isspace], and [\s] of a [str] pattern, on ASCII: tab, newline,
    vertical tab, form feed, carriage return, the separators 0x1c-0x1f
    and space. *)
Definition is_space (c : ascii) : bool := in_range 9 13 c || in_range 28 32 c.

Definition is_digit (c : ascii) : bool := in_range 48 57 c.
Definition is_upper (c : ascii) : bool := in_range 65 90 c.
Definition is_lower (c : ascii) : bool := in_range 97 122 c.
Definition is_alnum (c : ascii) : bool := is_digit c || is_upper c || is_lower c.

(** [\w] of a [str] pattern, on ASCII. *)
Definition is_word (c : ascii) : bool := is_alnum c || Ascii.eqb c "_".

(** [s.lstrip(chars)] and [s.rstrip(chars)], the stripped characters
    given by [p]. *)
Fixpoint lstrip_by (p : ascii -> bool) (s : string) : string :=
  match s with
  | EmptyString => EmptyString
  | String c s' => if p c then lstrip_by p s' else s
  end.

Fixpoint rstrip_by (p : ascii -> bool) (s : string) : string :=
  match s with
  | EmptyString => EmptyString
  | String c s' =>
      let r := rstrip_by p s' in
      if String.eqb r "" && p c then EmptyString else String c r
  end.

Definition strip_by (p : ascii -> bool) (s : string) : string :=
  rstrip_by p (lstrip_by p s).

(** [s.strip()]. *)
Definition strip (s : string) : string := strip_by is_space s.

(** [re.sub('[^...]', '', s)]: keeps the characters satisfying [p]. *)
Fixpoint filter_chars (p : ascii -> bool) (s : string) : string :=
  match s with
  | EmptyString => EmptyString
  | String c s' => if p c then String c (filter_chars p s') else filter_chars p s'
  end.

(** [s.split()]: the maximal runs of non-whitespace characters.  [cur] is
    the word read so far. *)
Fixpoint split_ws_from (cur s : string) : list string :=
  match s with
  | EmptyString => if String.eqb cur "" then [] else [cur]
  | String c s' =>
      if is_space c then
        if String.eqb cur "" then split_ws_from "" s' else cur :: split_ws_from "" s'
      else split_ws_from (cur ++ String c EmptyString)%string s'
  end.

Definition split_ws (s : string) : list string := split_ws_from "" s.

(** [sep.join(words)]. *)
Fixpoint join (sep : string) (words : list string) : string :=
  match words with
  | [] => EmptyString
  | [w] => w
  | w :: ws => (w ++ sep ++ join sep ws)%string
  end.

End Text.

(** ** [slugify] ([src/app.py]) *)

Module Slug.
Import Text.

(** The characters of the class [[\s_-]]. *)
Definition is_sep (c : ascii) : bool := is_space c || Ascii.eqb c "_" || Ascii.eqb c "-".

(** [re.sub(r'[\s_-]+', '-', s)]: every maximal run of separators becomes
    one dash; [in_run] says whether the previous character was one. *)
Fixpoint collapse_seps (in_run : bool) (s : string) : string :=
  match s with
  | EmptyString => EmptyString
  | String c s' =>
      if is_sep c then
        if in_run then collapse_seps true s' else String "-" (collapse_seps true s')
      else String c (collapse_seps false s')
  end.

Definition is_dash (c : ascii) : bool := Ascii.eqb c "-".

(** [slugify(text)] on ASCII text:
    - [text.lower().strip()];
    - [re.sub(r'[^\w\s-]', '', text)];
    - [re.sub(r'[\s_-]+', '-', text)];
    - [re.sub(r'^-+|-+$', '', text)], which removes the leading and the
      trailing run of dashes (the text has no newline left for [$] to
      stop before). *)
Definition slugify (text : string) : string :=
  let t1 := strip (Py.lower text) in
  let t2 := filter_chars (fun c => is_word c || is_space c || is_dash c) t1 in
  let t3 := collapse_seps false t2 in
  strip_by is_dash t3.

End Slug.

(** ** [werkzeug.utils.secure_filename] *)

Module Werkzeug.
Import Text.

(** The characters [_filename_ascii_strip_re] keeps: [[A-Za-z0-9_.-]]. *)
Definition is_fn_char (c : ascii) : bool :=
  is_alnum c || Ascii.eqb c "_" || Ascii.eqb c "." || Ascii.eqb c "-".

Definition is_dot_or_underscore (c : ascii) : bool := Ascii.eqb c "." || Ascii.eqb c "_".

(** [secure_filename(filename)] on a POSIX system ([os.sep] is ["/"],
    there is no [os.path.altsep] and no reserved device name), for ASCII
    text, on which the NFKD normalisation and the ASCII encoding change
    nothing:
    - every ["/"] becomes a space;
    - [re.sub('[^A-Za-z0-9_.-]', '', '_'.join(filename.split()))];
    - [.strip('._')]. *)
Definition secure_filename (filename : string) : string :=
  let f1 := Py.replace_char "/" " " filename in
  let f2 := join "_" (split_ws f1) in
  strip_by is_dot_or_underscore (filter_chars is_fn_char f2).

End Werkzeug.

(** ** Admin sessions ([src/app.py]) *)

Module Auth.

(** The keys of the Flask session the code reads: [is_admin] (its
    truthiness) and [admin_pass_hash]. *)
Record session := { s_admin : bool; s_hash : option string }.

Definition cleared : session := {| s_admin := false; s_hash := None |}.

Section WithHash.

(** [hashlib.sha256(password.encode()).hexdigest()]. *)
Variable sha256 : string -> string.

(** [check_auth_sync], run before every request; [admin_pw] is
    [ADMIN_PASSWORD] ([None] when the variable is unset). *)
Definition check_auth_sync (admin_pw : option string) (s : session) : session :=
  if s_admin s then
    match admin_pw with
    | Some p =>
        if String.eqb p "" then cleared
        else match s_hash s with
             | Some h => if String.eqb h (sha256 p) then s else cleared
             | None => cleared
             end
    | None => cleared
    end
  else s.

Inductive login_resp :=
| LoginUnset            (* "Admin password not set in environment.", 500 *)
| LoginRedirect         (* redirect to list_events *)
| LoginForm (err : bool). (* the form, with "Invalid password" when [err] *)

(** [login]: [post] is [request.method == 'POST'], [form_pw] is
    [request.form.get('password')]. *)
Definition login (admin_pw : option string) (post : bool) (form_pw : option string)
  (s : session) : login_resp * session :=
  match admin_pw with
  | None => (LoginUnset, s)
  | Some p =>
      if String.eqb p "" then (LoginUnset, s)
      else if post then
        match form_pw with
        | Some q =>
            if String.eqb q p
            then (LoginRedirect, {| s_admin := true; s_hash := Some (sha256 p) |})
            else (LoginForm true, s)
        | None => (LoginForm true, s)
        end
      else (LoginForm false, s)
  end.

(** A request to [login]: [check_auth_sync] first, then the view. *)
Definition login_request admin_pw post form_pw s :=
  login admin_pw post form_pw (check_auth_sync admin_pw s).

End WithHash.

(** [logout]. *)
Definition logout (s : session) : session := cleared.

End Auth.

(** ** Event administration ([src/app.py]) *)

Module Admin.

(** [app.load_events]: [{}] when [events.json] is missing or unreadable. *)
Definition load_events (file : option manifest) : manifest :=
  match file with Some m => m | None => [] end.

(** [os.path.join(a, b)] ([posixpath]); paths are relative to [DATA_DIR],
    which is the empty path. *)
Definition pjoin (a b : string) : string :=
  match b with
  | String "/" _ => b
  | _ => if String.eqb a "" then b
         else if String.eqb (substring (String.length a - 1) 1 a) "/" then (a ++ b)%string
         else (a ++ "/" ++ b)%string
  end.

(** The file-system operations an administration request performs, each
    with its outcome ([false]: it raised). *)
Inductive effect :=
| MakeDirs (path : string) (ok : bool)           (* os.makedirs(path, exist_ok=True) *)
| SaveUpload (path : string) (ok : bool)         (* FileStorage.save(path) *)
| GenThumb (src dst : string)                    (* utils.generate_thumbnail (never raises) *)
| RemoveFile (path : string) (ok : bool)         (* os.remove(path) *)
| RmTree (path : string) (ok : bool).            (* shutil.rmtree(path) *)

(** What the file system answers. *)
Record oracle := {
  mkdirs_ok : string -> bool;
  upload_save_ok : string -> bool;
  remove_ok : string -> bool;
  path_exists : string -> bool;
  rmtree_ok : string -> bool;
  json_save_ok : bool                            (* save_events returns True *)
}.

Inductive resp :=
| Status (code : Z)          (* an error response, or Flask's 500 *)
| Created (event_path : string)
| Ok.

(** The state these views change: the contents of [events.json]. *)
Definition result := (resp * option manifest * list effect)%type.

(** The form fields, each [request.form.get(field, '')]. *)
Record form := {
  fm_name : string; fm_date : string; fm_description : string;
  fm_password : string; fm_folder : string; fm_event_id : string;
  fm_hidden : string
}.

(** [save_events(events)] then the response; [save_events] catches its
    errors and returns [False]. *)
Definition save_then (o : oracle) (file : option manifest) (events : manifest)
  (effs : list effect) (k : option manifest -> list effect -> result) : result :=
  if json_save_ok o then k (Some events) effs else (Status 500, file, effs).

(** The optional event cover ([request.files['thumbnail']], given by the
    name of the uploaded file): saved to [temp_thumb<ext>], converted to
    [thumbnail.webp] in the event folder, and the temporary file removed.
    An exception of [save] or [os.remove] is not caught (Flask answers 500). *)
Definition cover_upload (o : oracle) (event_folder : string) (thumb : option string)
  (ok_resp : resp) (file : option manifest) (effs : list effect) : result :=
  match thumb with
  | Some tfn =>
      if String.eqb tfn "" then (ok_resp, file, effs)
      else
        let ext := Py.lower (snd (Py.splitext tfn)) in
        if Py.mem ext IMAGE_EXTS then
          let final := pjoin event_folder "thumbnail.webp" in
          let temp := pjoin event_folder ("temp_thumb" ++ ext) in
          if upload_save_ok o temp then
            let effs1 := effs ++ [SaveUpload temp true; GenThumb temp final] in
            if path_exists o temp then
              if remove_ok o temp then (ok_resp, file, effs1 ++ [RemoveFile temp true])
              else (Status 500, file, effs1 ++ [RemoveFile temp false])
            else (ok_resp, file, effs1)
          else (Status 500, file, effs ++ [SaveUpload temp false])
        else (ok_resp, file, effs)
  | None => (ok_resp, file, effs)
  end.

(** [api_create_event]. *)
Definition api_create_event (o : oracle) (file : option manifest) (is_admin : bool)
  (fm : form) (thumb : option string) : result :=
  if negb is_admin then (Status 401, file, []) else
  let name := Text.strip (fm_name fm) in
  let date := Text.strip (fm_date fm) in
  let description := Text.strip (fm_description fm) in
  let pw := Text.strip (fm_password fm) in
  let fld := Text.strip (fm_folder fm) in
  if String.eqb name "" then (Status 400, file, []) else
  if String.eqb date "" then (Status 400, file, []) else
  if String.eqb description "" then (Status 400, file, []) else
  let custom_id := Text.strip (fm_event_id fm) in
  let event_path := Slug.slugify (if String.eqb custom_id "" then name else custom_id) in
  if String.eqb event_path "" then (Status 400, file, []) else
  let fld := if String.eqb fld "" then event_path else Werkzeug.secure_filename fld in
  let events := load_events file in
  match dict_get event_path events with
  | Some _ => (Status 400, file, [])
  | None =>
      let event_folder := pjoin "" fld in
      let media_dir := pjoin event_folder "Media" in
      let thumb_dir := pjoin event_folder "Thumbnail" in
      if negb (mkdirs_ok o media_dir) then (Status 500, file, [MakeDirs media_dir false]) else
      if negb (mkdirs_ok o thumb_dir) then
        (Status 500, file, [MakeDirs media_dir true; MakeDirs thumb_dir false]) else
      let ev := {| name := name; date := date; description := description; folder := fld;
                   hidden := String.eqb (fm_hidden fm) "on";
                   password := if String.eqb pw "" then None else Some pw |} in
      save_then o file (dict_set event_path ev events)
        [MakeDirs media_dir true; MakeDirs thumb_dir true]
        (cover_upload o event_folder thumb (Created event_path))
  end.

(** [api_update_event]: the record is updated in place; an empty password
    field deletes the [password] key. *)
Definition api_update_event (o : oracle) (file : option manifest) (is_admin : bool)
  (event_path : string) (fm : form) (thumb : option string) : result :=
  if negb is_admin then (Status 401, file, []) else
  let events := load_events file in
  match dict_get event_path events with
  | None => (Status 404, file, [])
  | Some ev =>
      let name := Text.strip (fm_name fm) in
      let date := Text.strip (fm_date fm) in
      let description := Text.strip (fm_description fm) in
      let pw := Text.strip (fm_password fm) in
      if String.eqb name "" then (Status 400, file, []) else
      if String.eqb date "" then (Status 400, file, []) else
      if String.eqb description "" then (Status 400, file, []) else
      let ev' := {| name := name; date := date; description := description;
                    folder := folder ev; hidden := String.eqb (fm_hidden fm) "on";
                    password := if String.eqb pw "" then None else Some pw |} in
      save_then o file (dict_set event_path ev' events) []
        (cover_upload o (pjoin "" (folder ev)) thumb Ok)
  end.

(** [api_delete_event]. *)
Definition api_delete_event (o : oracle) (file : option manifest) (is_admin : bool)
  (event_path : string) : result :=
  if negb is_admin then (Status 401, file, []) else
  let events := load_events file in
  match dict_get event_path events with
  | None => (Status 404, file, [])
  | Some ev =>
      let event_folder := pjoin "" (folder ev) in
      let effs :=
        if path_exists o event_folder then [RmTree event_folder (rmtree_ok o event_folder)]
        else [] in
      if path_exists o event_folder && negb (rmtree_ok o event_folder) then
        (Status 500, file, effs)
      else save_then o file (dict_del event_path events) effs (fun f e => (Ok, f, e))
  end.

End Admin.

(** ** Gallery page, uploads and deletions of media ([src/app.py],
    [src/utils.py]) *)

Module Gallery.

Inductive page := Page404 | PageLocked | PageGallery (media : list media_item).

(** [event_page]: the locked page unless the event has no password, the
    key matches it, or the caller is an admin; otherwise the first 20
    items. *)
Definition event_page (f : fsys) (events : manifest) (event_path key : string)
  (is_admin : bool) : page :=
  match dict_get event_path events with
  | None => Page404
  | Some ev =>
      let is_locked := Api.locked ev in
      let key_ok := match password ev with Some p => String.eqb key p | None => false end in
      let unlocked := negb is_locked || key_ok || is_admin in
      if is_locked && negb unlocked then PageLocked
      else PageGallery (Py.slice (get_event_media_list f ev) 0 Api.PAGE_SIZE)
  end.

(** What the thumbnail generators meet for a saved upload: [Image.open]'s
    image, whether [img.save] works, and the video capture. *)
Record gen_oracle := {
  image_of : string -> option Thumb.image;
  webp_save_ok : string -> bool;
  capture_of : string -> Video.capture
}.

(** [generate_thumb_for_any(media_path, thumb_path)]: whether a thumbnail
    file was written. *)
Definition generate_thumb_for_any (g : gen_oracle) (fname : string) : bool :=
  let ext := Py.lower (snd (Py.splitext fname)) in
  if Py.mem ext IMAGE_EXTS then
    fst (Thumb.utils_generate_thumbnail (image_of g fname) (webp_save_ok g fname) 80)
  else if Py.mem ext VIDEO_EXTS then
    Video.truthy (fst (Video.generate_video_thumbnail (capture_of g fname)))
  else false.

(** A folder name the file-system model represents as an entry of the
    data root. *)
Definition plain_name (d : string) : bool :=
  negb (String.eqb d "") && negb (Py.mem d ["."; ".."; "Thumbnail"; "events.json"]) &&
  negb (existsb (fun c => Ascii.eqb c "/") (list_ascii_of_string d)).

Inductive uresp :=
| UStatus (code : Z)                (* an error response *)
| USuccess (filename thumb : string)
| URaised                           (* an uncaught exception: Flask's 500 *)
| UOutside.                         (* a folder shape the model does not represent *)

(** [api_upload]: [file] is the uploaded file's name ([None] when there is
    no [file] part).  The model covers an event folder that is an entry of
    the data root with a [Media] directory; [save_ok] says whether
    [file.save] succeeds, [mkdir_ok] whether a missing [Thumbnail] can be
    created. *)
Definition api_upload (g : gen_oracle) (save_ok mkdir_ok : bool) (f : fsys)
  (is_admin : bool) (event_path : string) (file : option string) : uresp * fsys :=
  if negb is_admin then (UStatus 401, f) else
  match dict_get event_path (Admin.load_events (events_file f)) with
  | None => (UStatus 404, f)
  | Some ev =>
      match file with
      | None => (UStatus 400, f)
      | Some raw =>
          if String.eqb raw "" then (UStatus 400, f) else
          let fname := Werkzeug.secure_filename raw in
          let d := folder ev in
          if negb (plain_name d) then (UOutside, f) else
          match get_node f d with
          | Some FileNode => (URaised, f)         (* makedirs under a plain file *)
          | Some (DirNode (Some m) th) =>
              match th with
              | TFile => (URaised, f)              (* makedirs(thumb_dir): FileExistsError *)
              | _ =>
                  if negb (Sync.is_tdir th) && negb mkdir_ok then (URaised, f) else
                  let th1 := match th with TDir l => TDir l | _ => TDir [] end in
                  let f1 := set_node f d (DirNode (Some m) th1) in
                  (* the path of an empty name is the Media directory itself *)
                  if String.eqb fname "" || negb save_ok then (URaised, f1) else
                  let m' := if Py.mem fname m then m else m ++ [fname] in
                  let tname := (fname ++ ".webp")%string in
                  let th2 := if generate_thumb_for_any g fname && negb (tnode_has th1 tname)
                             then Sync.tnode_add th1 tname else th1 in
                  (USuccess fname tname, set_node f d (DirNode (Some m') th2))
              end
          | _ => (UOutside, f)
          end
      end
  end.

(** [api_delete]: [file] is [request.form.get('filename')]; [rm_ok] says
    whether [os.remove] succeeds on a name. *)
Definition api_delete (rm_ok : string -> bool) (f : fsys) (is_admin : bool)
  (event_path : string) (file : option string) : uresp * fsys :=
  if negb is_admin then (UStatus 401, f) else
  match dict_get event_path (Admin.load_events (events_file f)) with
  | None => (UStatus 404, f)
  | Some ev =>
      match file with
      | None => (UStatus 400, f)
      | Some raw =>
          if String.eqb raw "" then (UStatus 400, f) else
          let fname := Werkzeug.secure_filename raw in
          let d := folder ev in
          if negb (plain_name d) then (UOutside, f) else
          let tname := (fname ++ ".webp")%string in
          let drop x l := filter (fun y => negb (String.eqb y x)) l in
          match get_node f d with
          | Some (DirNode media th) =>
              (* os.path.exists(media_path); the empty name is the Media directory *)
              let media_exists :=
                match media with Some m => String.eqb fname "" || Py.mem fname m | None => false end in
              if media_exists && (String.eqb fname "" || negb (rm_ok fname)) then (URaised, f) else
              let media' := match media with
                            | Some m => Some (if media_exists then drop fname m else m)
                            | None => None end in
              let f1 := set_node f d (DirNode media' th) in
              if tnode_has th tname then
                if rm_ok tname then
                  (USuccess fname tname, set_node f d (DirNode media' (Sync.tnode_remove th tname)))
                else (URaised, f1)
              else (USuccess fname tname, f1)
          | _ => (USuccess fname tname, f)      (* neither path exists *)
          end
      end
  end.

End Gallery.

(** ** Shapes of names *)

Module Shape.
Import Text.

Fixpoint all_chars (p : ascii -> bool) (s : string) : bool :=
  match s with
  | EmptyString => true
  | String c s' => p c && all_chars p s'
  end.

Definition starts_with (p : ascii -> bool) (s : string) : bool :=
  match s with String c _ => p c | EmptyString => false end.

Fixpoint ends_with (p : ascii -> bool) (s : string) : bool :=
  match s with
  | EmptyString => false
  | String c s' => if String.eqb s' "" then p c else ends_with p s'
  end.

(** No two dashes in a row. *)
Fixpoint no_double_dash (s : string) : bool :=
  match s with
  | EmptyString => true
  | String c s' => (negb (Slug.is_dash c) || negb (starts_with Slug.is_dash s')) && no_double_dash s'
  end.

Definition slug_char (c : ascii) : bool := is_lower c || is_digit c || Slug.is_dash c.

(** A URL slug: lower-case letters, digits and single dashes, with no
    dash at either end. *)
Definition is_slug (s : string) : bool :=
  all_chars slug_char s && negb (starts_with Slug.is_dash s) &&
  negb (ends_with Slug.is_dash s) && no_double_dash s.

(** A name [secure_filename] can return. *)
Definition is_secure_name (s : string) : bool :=
  all_chars Werkzeug.is_fn_char s &&
  negb (starts_with Werkzeug.is_dot_or_underscore s) &&
  negb (ends_with Werkzeug.is_dot_or_underscore s).

(** The characters [slugify] keeps after lowering and its first
    substitution. *)
Definition kept (c : ascii) : bool :=
  (is_word c || is_space c || Slug.is_dash c) && negb (is_upper c).

End Shape.

(** ** Invariants of the Reconciler *)

Module SyncInv.
Import Sync.

(** What a log entry may say, given the oracle. *)
Definition entry_ok (o : oracle) (e : log_entry) : Prop :=
  match e with
  | LGen _ m _ => is_image m = true
  | LRemoved fd t ok => ok = rm_ok o fd t
  | _ => True
  end.

(** The entries that concern the event folder [fd] only. *)
Definition about (fd : string) (e : log_entry) : Prop :=
  match e with
  | LGen d _ _ | LRemoved d _ _ | LCreatedThumbDir d => d = fd
  | _ => True
  end.

(** The entries printed outside the per-event loop. *)
Definition neutral (e : log_entry) : Prop :=
  match e with
  | LGen _ _ _ | LRemoved _ _ _ | LCreatedThumbDir _ => False
  | _ => True
  end.

(** After the Reconciler has handled folder [fd]: every orphan still in
    [Thumbnail] had its removal fail, and every image has its thumbnail or
    a failed generation attempt. *)
Definition thumbs_inv (fd : string) (s : st) : Prop :=
  forall media th, get_node (fs s) fd = Some (DirNode (Some media) th) ->
  (forall t, In t (tnames th) -> orphan (valid_media_bases media) t = true ->
     In (LRemoved fd t false) (log s)) /\
  (forall m, In m media -> is_image m = true ->
     In (thumb_name m) (tnames th) \/ In (LGen fd m false) (log s)).

(** The state [process_all] stops in, normally or at an exception. *)
Definition res_st (r : st + (exn * st)) : st :=
  match r with inl s => s | inr (_, s) => s end.

(** The thumbnail [tm] of folder [fd] is present, and no generation
    attempt has targeted it. *)
Definition keeps_thumb (fd : string) (media : list string) (tm : string) (s : st) : Prop :=
  (exists l, get_node (fs s) fd = Some (DirNode (Some media) (TDir l)) /\ In tm l) /\
  (forall m' ok, In (LGen fd m' ok) (log s) -> thumb_name m' <> tm).

End SyncInv.

(** Pages [1 .. K] of a listing, as the chunks [event_api] returns. *)
Definition pages_concat {A} (l : list A) (K : Z) : list A :=
  concat (map (fun i => fst (fst (Api.paginate l (Z.of_nat i)))) (seq 1 (Z.to_nat K))).

(** ** Concrete inputs *)

Module Fixtures.

(** Every effect succeeds. *)
Definition all_ok : Sync.oracle :=
  {| Sync.gen_ok := fun _ _ => true; Sync.rm_ok := fun _ _ => true;
     Sync.mkdir_ok := fun _ => true; Sync.save_ok := true |}.

(** [os.makedirs] fails for the folder [Trip] (no write permission). *)
Definition mkdir_fails_for_trip : Sync.oracle :=
  {| Sync.gen_ok := fun _ _ => true; Sync.rm_ok := fun _ _ => true;
     Sync.mkdir_ok := fun fd => negb (String.eqb fd "Trip"); Sync.save_ok := true |}.

Definition mk_root (m : option manifest) (es : list (string * node)) : fsys :=
  {| data_isdir := true; events_file := m; entries := es; global_thumbs := ["image.webp"; "video.webp"; "event.webp"] |}.

(** An untracked folder with a video and a stray text file in [Thumbnail]. *)
Definition root_video : fsys :=
  mk_root None [("E", DirNode (Some ["v.mp4"]) (TDir ["notes.txt"]))].

(** The spec's scenario: an untracked [Summer Trip] with two images. *)
Definition root_trip : fsys :=
  mk_root None [("Summer Trip", DirNode (Some ["b.png"; "a.jpg"; "c.mp4"; "x.txt"]) TAbsent)].

Definition gallery : event :=
  {| name := "Gallery"; description := "d"; date := "01-02-2025"; folder := "E";
     hidden := false; password := None |}.

(** An image uploaded through [api_upload]: its thumbnail is [photo.jpg.webp]. *)
Definition root_uploaded : fsys :=
  mk_root (Some [("gallery", gallery)])
    [("E", DirNode (Some ["photo.jpg"]) (TDir ["photo.jpg.webp"]))].

(** An image whose stem-named thumbnail already exists. *)
Definition root_stem_thumb : fsys :=
  mk_root (Some [("gallery", gallery)])
    [("E", DirNode (Some ["a.jpg"]) (TDir ["a.webp"]))].

(** A [.3gp] video with a stem-named thumbnail, next to an image. *)
Definition root_3gp : fsys :=
  mk_root (Some [("gallery", gallery)])
    [("E", DirNode (Some ["clip.3gp"; "b.jpg"]) (TDir ["clip.webp"; "b.webp"]))].

(** A manifest record keyed [foo] whose folder is [data1], next to an
    untracked folder [Foo] whose derived key is also [foo]. *)
Definition foo_event : event :=
  {| name := "Foo party"; description := "d"; date := "01-02-2025"; folder := "data1";
     hidden := false; password := None |}.

Definition root_collide : fsys :=
  mk_root (Some [("foo", foo_event)])
    [("data1", DirNode None TAbsent); ("Foo", DirNode None TAbsent)].

(** Two untracked folders; the first cannot get a [Thumbnail] directory. *)
Definition root_readonly : fsys :=
  mk_root None
    [("Trip", DirNode (Some ["a.jpg"]) TAbsent); ("Later", DirNode (Some ["b.jpg"]) (TDir []))].

Definition pass (o : Sync.oracle) (f : fsys) : Sync.st := Sync.out_st (Sync.sync_events o f).

Definition done_events (r : Sync.outcome) : manifest :=
  match r with Sync.Done evs _ => evs | _ => [] end.

(** A locked event for the access-control handlers. *)
Definition party : event :=
  {| name := "Party"; description := "d"; date := "01-02-2025"; folder := "Party";
     hidden := false; password := Some "s3cret" |}.

Definition party_events : manifest := [("party", party)].

Definition root_party : fsys :=
  mk_root (Some party_events)
    [("Party", DirNode (Some ["a.jpg"; "b.mp4"]) (TDir ["a.jpg.webp"]))].

(** A camera photo stored landscape with EXIF orientation 6 (rotate 90). *)
Definition rotated_photo : Thumb.image :=
  {| Thumb.mode := "RGB"; Thumb.orientation := 6; Thumb.width := 4000; Thumb.height := 3000 |}.

(** A 30 fps stream none of whose frames decode. *)
Definition undecodable : Video.capture :=
  {| Video.opened := true; Video.fps := 30 # 1; Video.frame_at := fun _ => None;
     Video.encode_ok := fun _ => true |}.

End Fixtures.

(** Inputs for the administration and gallery views. *)

Module ExtraFixtures.

(** A stand-in for the SHA-256 digest: distinct passwords, distinct digests. *)
Definition tag_hash (s : string) : string := ("sha256:" ++ s)%string.

Definition guest : Auth.session := {| Auth.s_admin := false; Auth.s_hash := None |}.

(** Every file-system operation of the administration views succeeds. *)
Definition disk_ok : Admin.oracle :=
  {| Admin.mkdirs_ok := fun _ => true; Admin.upload_save_ok := fun _ => true;
     Admin.remove_ok := fun _ => true; Admin.path_exists := fun _ => true;
     Admin.rmtree_ok := fun _ => true; Admin.json_save_ok := true |}.

(** [shutil.rmtree] raises (no permission). *)
Definition rmtree_denied : Admin.oracle :=
  {| Admin.mkdirs_ok := fun _ => true; Admin.upload_save_ok := fun _ => true;
     Admin.remove_ok := fun _ => true; Admin.path_exists := fun _ => true;
     Admin.rmtree_ok := fun _ => false; Admin.json_save_ok := true |}.

Definition trip_form : Admin.form :=
  {| Admin.fm_name := "  Summer Trip "; Admin.fm_date := "2024-07-01";
     Admin.fm_description := "Beach days"; Admin.fm_password := "";
     Admin.fm_folder := ""; Admin.fm_event_id := ""; Admin.fm_hidden := "on" |}.

(** The same form with the folder field [..]. *)
Definition dotdot_form : Admin.form :=
  {| Admin.fm_name := "  Summer Trip "; Admin.fm_date := "2024-07-01";
     Admin.fm_description := "Beach days"; Admin.fm_password := "";
     Admin.fm_folder := ".."; Admin.fm_event_id := ""; Admin.fm_hidden := "on" |}.

Definition trip : event :=
  {| name := "Summer Trip"; description := "Beach days"; date := "2024-07-01";
     folder := "summer-trip"; hidden := true; password := Some "s3cret" |}.

Definition trip_events : manifest := [("summer-trip", trip)].

(** The record after [trip_form] is submitted to [api_update_event]. *)
Definition trip_open : event :=
  {| name := "Summer Trip"; description := "Beach days"; date := "2024-07-01";
     folder := "summer-trip"; hidden := true; password := None |}.

Definition trip_open_events : manifest := [("summer-trip", trip_open)].

(** Every image opens and its thumbnail saves; no video opens. *)
Definition gen_images : Gallery.gen_oracle :=
  {| Gallery.image_of := fun _ => Some {| Thumb.mode := "RGB"; Thumb.orientation := 1;
                                         Thumb.width := 4000; Thumb.height := 3000 |};
     Gallery.webp_save_ok := fun _ => true;
     Gallery.capture_of := fun _ => {| Video.opened := false; Video.fps := 0 # 1;
                                       Video.frame_at := fun _ => None;
                                       Video.encode_ok := fun _ => false |} |}.

(** A file copied into [Media] by hand, with a space in its name, and a
    second event folder. *)
Definition root_spaced : fsys :=
  Fixtures.mk_root (Some [("gallery", Fixtures.gallery)])
    [("E", DirNode (Some ["my photo.jpg"]) (TDir ["my photo.jpg.webp"]));
     ("F", DirNode (Some ["b.jpg"]) (TDir []))].

End ExtraFixtures.

(** * Properties *)

(** ** Pagination *)

Module PaginationFacts.

Lemma firstn_min_length {A} (n : nat) (l : list A) :
  firstn (Nat.min n (length l)) l = firstn n l.
Proof.
  revert n; induction l as [|x l IH]; intros [|n]; simpl; rewrite ?firstn_nil, ?IH; auto.
Qed.

Lemma firstn_add_split {A} (a b : nat) (l : list A) :
  firstn (a + b) l = firstn a l ++ firstn b (skipn a l).
Proof.
  revert l; induction a as [|a IH]; intros [|x l]; simpl; rewrite ?firstn_nil, ?IH; auto.
Qed.

(** For a page [p >= 1] the chunk is the [p]-th block of twenty. *)
Lemma paginate_chunk {A} (l : list A) (p : Z) :
  1 <= p ->
  fst (fst (Api.paginate l p)) =
  firstn 20 (skipn (Z.to_nat ((p - 1) * 20)) l).
Proof.
  intros Hp. unfold Api.paginate, Py.slice, Py.norm_index, Api.PAGE_SIZE.
  cbv zeta beta. cbn [fst snd].
  set (N := Z.of_nat (length l)).
  replace ((p - 1) * 20 <? 0) with false by (symmetry; apply Z.ltb_ge; lia).
  replace ((p - 1) * 20 + 20 <? 0) with false by (symmetry; apply Z.ltb_ge; lia).
  destruct (Z.le_gt_cases N ((p - 1) * 20)) as [Hge|Hlt].
  - rewrite (Z.min_r ((p - 1) * 20)) by lia.
    rewrite (Z.min_r ((p - 1) * 20 + 20)) by lia.
    rewrite !skipn_all2 by lia.
    now rewrite !firstn_nil.
  - rewrite (Z.min_l ((p - 1) * 20)) by lia.
    rewrite <- (firstn_min_length 20).
    f_equal. rewrite length_skipn.
    destruct (Z.le_gt_cases ((p - 1) * 20 + 20) N).
    + rewrite Z.min_l by lia. lia.
    + rewrite Z.min_r by lia. lia.
Qed.

Lemma concat_blocks {A} (l : list A) (m : nat) :
  concat (map (fun i => firstn 20 (skipn (20 * i) l)) (seq 0 m)) = firstn (20 * m) l.
Proof.
  induction m as [|m IH]; [reflexivity|].
  rewrite seq_S, map_app, concat_app, IH. cbn [map concat].
  rewrite app_nil_r, <- firstn_add_split. f_equal. lia.
Qed.

End PaginationFacts.

(** ** Access control *)

Lemma rejected_locked_false ev p key is_admin :
  password ev = Some p -> p <> "" ->
  Api.rejected ev key is_admin = negb (String.eqb key p) && negb is_admin.
Proof.
  intros Hp Hne. unfold Api.rejected. rewrite Hp.
  destruct (String.eqb_spec p "") as [E|_]; [contradiction|reflexivity].
Qed.

Lemma mem_In (x : string) (xs : list string) : Py.mem x xs = true <-> In x xs.
Proof.
  unfold Py.mem. rewrite existsb_exists. split.
  - intros [y [Hy E]]. apply String.eqb_eq in E. now subst.
  - intros H. exists x. split; [exact H|apply String.eqb_refl].
Qed.

(** ** Facts about the Reconciler *)

Module SyncFacts.
Import Sync SyncInv.

Lemma split_last_dot_webp (x : string) :
  Py.split_last_dot (x ++ ".webp")%string = Some (x, ".webp").
Proof. induction x as [|c x IH]; [reflexivity|]. simpl. now rewrite IH. Qed.

Lemma splitext_root_not_dots (p b e : string) :
  Py.splitext p = (b, e) -> e <> EmptyString -> Py.all_dots b = false.
Proof.
  unfold Py.splitext.
  destruct (Py.split_last_dot p) as [[r e']|];
    [destruct (Py.all_dots r) eqn:E|]; intros H; inversion H; subst; congruence.
Qed.

Lemma is_image_ext (m : string) : is_image m = true -> snd (Py.splitext m) <> EmptyString.
Proof. unfold is_image. intros H E. rewrite E in H. discriminate. Qed.

(** The thumbnail [base + '.webp'] splits back into [base] and [.webp]. *)
Lemma splitext_thumb_name (m : string) :
  snd (Py.splitext m) <> EmptyString ->
  Py.splitext (thumb_name m) = (fst (Py.splitext m), ".webp").
Proof.
  intros H. unfold thumb_name.
  destruct (Py.splitext m) as [b e] eqn:E. simpl in *.
  apply splitext_root_not_dots in E; auto.
  unfold Py.splitext. rewrite split_last_dot_webp, E. reflexivity.
Qed.

Lemma image_recognized (m : string) : is_image m = true -> sync_recognized m = true.
Proof. unfold is_image, sync_recognized. intros H. now rewrite H. Qed.

Lemma base_valid (m : string) (media : list string) :
  In m media -> sync_recognized m = true ->
  In (fst (Py.splitext m)) (valid_media_bases media).
Proof.
  intros. unfold valid_media_bases.
  apply (in_map (fun x => fst (Py.splitext x))). now apply filter_In.
Qed.

(** A thumbnail named after a recognised image is never an orphan. *)
Lemma orphan_thumb_name_false (media : list string) (m : string) :
  In m media -> is_image m = true ->
  orphan (valid_media_bases media) (thumb_name m) = false.
Proof.
  intros Hin Him. unfold orphan.
  rewrite (splitext_thumb_name m (is_image_ext m Him)).
  rewrite (proj2 (mem_In _ _) (base_valid m media Hin (image_recognized m Him))).
  now rewrite andb_false_r.
Qed.

Lemma tnames_add (t : tnode) (x y : string) :
  In y (tnames t) -> In y (tnames (tnode_add t x)).
Proof. destruct t; simpl; auto. intros; apply in_or_app; auto. Qed.

Lemma tnames_add_new (t : tnode) (x : string) :
  is_tdir t = true -> In x (tnames (tnode_add t x)).
Proof. destruct t; simpl; try discriminate. intros; apply in_or_app; simpl; auto. Qed.

Lemma tnames_remove (t : tnode) (x y : string) :
  In y (tnames (tnode_remove t x)) <-> In y (tnames t) /\ y <> x.
Proof.
  destruct t; simpl; try tauto.
  rewrite filter_In. destruct (String.eqb_spec y x); simpl; intuition congruence.
Qed.

Lemma is_tdir_add (t : tnode) (x : string) : is_tdir (tnode_add t x) = is_tdir t.
Proof. now destruct t. Qed.

Lemma is_tdir_remove (t : tnode) (x : string) : is_tdir (tnode_remove t x) = is_tdir t.
Proof. now destruct t. Qed.

Lemma gen_missing_spec (o : oracle) (fd : string) (ms : list string) :
  forall th lg th' lg',
  gen_missing o fd ms th lg = (th', lg') ->
  (exists new, lg' = lg ++ new /\
     Forall (fun e => exists m ok, e = LGen fd m ok /\ is_image m = true /\
                                  ~ In (thumb_name m) (tnames th)) new) /\
  (forall y, In y (tnames th) -> In y (tnames th')) /\
  is_tdir th' = is_tdir th /\
  (forall m, In m ms -> is_image m = true ->
     In (thumb_name m) (tnames th') \/ In (LGen fd m false) lg').
Proof.
  induction ms as [|fname rest IH]; intros th lg th' lg' H; simpl in H.
  - inversion H; subst. split; [exists []; split; [now rewrite app_nil_r|constructor]|].
    split; [auto|]. split; [reflexivity|]. intros m [].
  - destruct (is_image fname) eqn:Ei; [destruct (tnode_has th (thumb_name fname)) eqn:Eh|].
    + destruct (IH _ _ _ _ H) as (Hlog & Hmono & Htd & Hcov).
      split; [exact Hlog|]. split; [exact Hmono|]. split; [exact Htd|].
      intros m [<-|Hm] Him; [|now apply Hcov].
      left. apply Hmono. now apply mem_In.
    + set (ok := gen_ok o fd fname && is_tdir th) in H.
      destruct (IH _ _ _ _ H) as ([new [Hlg Hnew]] & Hmono & Htd & Hcov).
      assert (Hsub : forall y, In y (tnames th) ->
                 In y (tnames (if ok then tnode_add th (thumb_name fname) else th)))
        by (intros y Hy; destruct ok; [apply tnames_add|]; exact Hy).
      split.
      * exists (LGen fd fname ok :: new). split; [now rewrite Hlg, <- app_assoc|].
        constructor.
        -- exists fname, ok. repeat split; auto.
           intros Hin. apply mem_In in Hin. unfold tnode_has in Eh. congruence.
        -- eapply Forall_impl; [|exact Hnew].
           intros e (m & b & He & Hm & Hn). exists m, b. repeat split; auto.
      * split; [intros y Hy; apply Hmono, Hsub, Hy|].
        split; [rewrite Htd; destruct ok; [apply is_tdir_add|reflexivity]|].
        intros m [<-|Hm] Him; [|now apply Hcov].
        destruct ok eqn:Eok.
        -- left. apply Hmono. apply tnames_add_new.
           unfold ok in Eok. now apply andb_true_iff in Eok.
        -- right. rewrite Hlg. apply in_or_app. left. apply in_or_app. right. now left.
    + destruct (IH _ _ _ _ H) as (Hlog & Hmono & Htd & Hcov).
      split; [exact Hlog|]. split; [exact Hmono|]. split; [exact Htd|].
      intros m [<-|Hm] Him; [congruence|now apply Hcov].
Qed.

Lemma cleanup_spec (o : oracle) (fd : string) (valid snap : list string) :
  forall th lg th' lg',
  cleanup o fd valid snap th lg = (th', lg') ->
  (exists new, lg' = lg ++ new /\
     Forall (fun e => exists t ok, e = LRemoved fd t ok /\ ok = rm_ok o fd t) new) /\
  (forall y, In y (tnames th') -> In y (tnames th)) /\
  is_tdir th' = is_tdir th /\
  (forall y, In y (tnames th) -> orphan valid y = false -> In y (tnames th')) /\
  (forall t, In t snap -> orphan valid t = true ->
     ~ In t (tnames th') \/ In (LRemoved fd t false) lg').
Proof.
  induction snap as [|t rest IH]; intros th lg th' lg' H; simpl in H.
  - inversion H; subst. split; [exists []; split; [now rewrite app_nil_r|constructor]|].
    split; [auto|]. split; [reflexivity|]. split; [auto|]. intros t [].
  - destruct (orphan valid t) eqn:Eo; [destruct (rm_ok o fd t) eqn:Er|].
    + destruct (IH _ _ _ _ H) as ([new [Hlg Hnew]] & Hsub & Htd & Hkeep & Hcov).
      split.
      * exists (LRemoved fd t true :: new). split; [now rewrite Hlg, <- app_assoc|].
        constructor; [exists t, true; auto|exact Hnew].
      * split; [intros y Hy; apply Hsub, tnames_remove in Hy; apply Hy|].
        split; [now rewrite Htd, is_tdir_remove|].
        split.
        -- intros y Hy Hyo. apply Hkeep; auto. apply tnames_remove.
           split; [exact Hy|]. intros ->. congruence.
        -- intros t' [<-|Ht'] Hto; [|now apply Hcov].
           left. intros Hin. apply Hsub, tnames_remove in Hin. now destruct Hin.
    + destruct (IH _ _ _ _ H) as ([new [Hlg Hnew]] & Hsub & Htd & Hkeep & Hcov).
      split.
      * exists (LRemoved fd t false :: new). split; [now rewrite Hlg, <- app_assoc|].
        constructor; [exists t, false; auto|exact Hnew].
      * split; [exact Hsub|]. split; [exact Htd|]. split; [exact Hkeep|].
        intros t' [<-|Ht'] Hto; [|now apply Hcov].
        right. rewrite Hlg. apply in_or_app. left. apply in_or_app. right. now left.
    + destruct (IH _ _ _ _ H) as (Hlog & Hsub & Htd & Hkeep & Hcov).
      split; [exact Hlog|]. split; [exact Hsub|]. split; [exact Htd|]. split; [exact Hkeep|].
      intros t' [<-|Ht'] Hto; [congruence|now apply Hcov].
Qed.

Lemma cleanup_step_spec (o : oracle) (fd : string) (valid : list string)
  (th2 : tnode) (lg2 : list log_entry) (th3 : tnode) (lg3 : list log_entry) :
  (match th2 with TDir l => cleanup o fd valid l th2 lg2 | _ => (th2, lg2) end)
    = (th3, lg3) ->
  (exists new, lg3 = lg2 ++ new /\
     Forall (fun e => exists t ok, e = LRemoved fd t ok /\ ok = rm_ok o fd t) new) /\
  (forall y, In y (tnames th2) -> orphan valid y = false -> In y (tnames th3)) /\
  (forall t, In t (tnames th3) -> orphan valid t = true -> In (LRemoved fd t false) lg3).
Proof.
  destruct th2 as [| |l]; intros H;
    try (inversion H; subst; split;
         [exists []; split; [now rewrite app_nil_r|constructor]|]; simpl; tauto).
  destruct (cleanup_spec _ _ _ _ _ _ _ _ H) as (Hlog & Hsub & _ & Hkeep & Hcov).
  split; [exact Hlog|]. split; [exact Hkeep|].
  intros t Ht Hto. destruct (Hcov t (Hsub t Ht) Hto) as [Hn|Hr]; [contradiction|exact Hr].
Qed.

Lemma get_node_set_same (f : fsys) (n : string) (nd : node) :
  get_node (set_node f n nd) n =
  match get_node f n with Some _ => Some nd | None => None end.
Proof.
  unfold get_node, set_node; simpl.
  induction (entries f) as [|[n' x] es IH]; simpl; auto.
  destruct (String.eqb n n') eqn:E; simpl; rewrite E; auto.
Qed.

Lemma get_node_set_other (f : fsys) (n m : string) (nd : node) :
  n <> m -> get_node (set_node f n nd) m = get_node f m.
Proof.
  intros Hne. unfold get_node, set_node; simpl.
  induction (entries f) as [|[n' x] es IH]; simpl; auto.
  destruct (String.eqb_spec n n'); simpl.
  - subst n'. destruct (String.eqb_spec m n); [congruence|reflexivity].
  - destruct (String.eqb m n'); auto.
Qed.

(** The two ways one iteration of the step-3 loop can end normally. *)
Lemma process_event_cases (o : oracle) (fd : string) (s s' : st) :
  process_event o fd s = inl s' ->
  (s' = s /\ forall media th, get_node (fs s) fd <> Some (DirNode (Some media) th)) \/
  exists media th th1 lg1 th2 lg2 th3 lg3,
    get_node (fs s) fd = Some (DirNode (Some media) th) /\
    ((th = TAbsent /\ th1 = TDir [] /\ lg1 = log s ++ [LCreatedThumbDir fd]) \/
     (th <> TAbsent /\ th1 = th /\ lg1 = log s)) /\
    gen_missing o fd media th1 lg1 = (th2, lg2) /\
    (match th2 with
     | TDir l => cleanup o fd (valid_media_bases media) l th2 lg2
     | _ => (th2, lg2)
     end) = (th3, lg3) /\
    s' = {| fs := set_node (fs s) fd (DirNode (Some media) th3); log := lg3 |}.
Proof.
  unfold process_event.
  destruct (get_node (fs s) fd) as [[|[media|] th]|] eqn:En; intros H;
    try (inversion H; subst; left; split; [reflexivity|intros; congruence]).
  right.
  assert (Hens : exists th1 lg1,
            ((th = TAbsent /\ th1 = TDir [] /\ lg1 = log s ++ [LCreatedThumbDir fd]) \/
             (th <> TAbsent /\ th1 = th /\ lg1 = log s)) /\
            (let '(th2, lg2) := gen_missing o fd media th1 lg1 in
             let '(th3, lg3) :=
               match th2 with
               | TDir l => cleanup o fd (valid_media_bases media) l th2 lg2
               | _ => (th2, lg2)
               end in
             inl {| fs := set_node (fs s) fd (DirNode (Some media) th3); log := lg3 |})
            = @inl st (exn * st) s').
  { destruct th as [| |l].
    - destruct (mkdir_ok o fd); [|discriminate].
      exists (TDir []), (log s ++ [LCreatedThumbDir fd]). split; [left; auto|exact H].
    - exists TFile, (log s). split; [right; split; [discriminate|auto]|exact H].
    - exists (TDir l), (log s). split; [right; split; [discriminate|auto]|exact H]. }
  destruct Hens as (th1 & lg1 & Hcase & Hrest).
  destruct (gen_missing o fd media th1 lg1) as [th2 lg2] eqn:Eg.
  destruct (match th2 with
            | TDir l => cleanup o fd (valid_media_bases media) l th2 lg2
            | _ => (th2, lg2)
            end) as [th3 lg3] eqn:Ec.
  inversion Hrest; subst.
  exists media, th, th1, lg1, th2, lg2, th3, lg3. auto 6.
Qed.

Lemma process_event_log (o : oracle) (fd : string) (s s' : st) :
  process_event o fd s = inl s' ->
  exists new, log s' = log s ++ new /\ Forall (fun e => entry_ok o e /\ about fd e) new.
Proof.
  intros H. destruct (process_event_cases o fd s s' H)
    as [[-> _]|(media & th & th1 & lg1 & th2 & lg2 & th3 & lg3 & Hn & Hens & Hg & Hc & ->)].
  - exists []. split; [now rewrite app_nil_r|constructor].
  - destruct (gen_missing_spec _ _ _ _ _ _ _ Hg) as ([n2 [Hl2 Hf2]] & _).
    destruct (cleanup_step_spec _ _ _ _ _ _ _ Hc) as ([n3 [Hl3 Hf3]] & _).
    simpl. rewrite Hl3, Hl2.
    destruct Hens as [(_ & _ & ->)|(_ & _ & ->)].
    + exists ([LCreatedThumbDir fd] ++ n2 ++ n3). split; [now rewrite !app_assoc|].
      apply Forall_app; split; [repeat constructor|].
      apply Forall_app; split.
      * eapply Forall_impl; [|exact Hf2]. intros e (m & b & -> & Hm & _). simpl; auto.
      * eapply Forall_impl; [|exact Hf3]. intros e (t & b & -> & Hb). simpl; auto.
    + exists (n2 ++ n3). split; [now rewrite !app_assoc|].
      apply Forall_app; split.
      * eapply Forall_impl; [|exact Hf2]. intros e (m & b & -> & Hm & _). simpl; auto.
      * eapply Forall_impl; [|exact Hf3]. intros e (t & b & -> & Hb). simpl; auto.
Qed.

Lemma process_event_frame (o : oracle) (fd n : string) (s s' : st) :
  process_event o fd s = inl s' -> fd <> n -> get_node (fs s') n = get_node (fs s) n.
Proof.
  intros H Hne. destruct (process_event_cases o fd s s' H)
    as [[-> _]|(media & th & th1 & lg1 & th2 & lg2 & th3 & lg3 & Hn & Hens & Hg & Hc & ->)];
    [reflexivity|].
  simpl. now apply get_node_set_other.
Qed.

Lemma thumbs_inv_mono (fd : string) (s s' : st) :
  get_node (fs s') fd = get_node (fs s) fd ->
  (exists new, log s' = log s ++ new) ->
  thumbs_inv fd s -> thumbs_inv fd s'.
Proof.
  intros Hn [new Hl] Hi media th Hs. rewrite Hn in Hs.
  destruct (Hi media th Hs) as [Ha Hb]. rewrite Hl. split.
  - intros t Ht Ho. apply in_or_app. left. now apply Ha.
  - intros m Hm Him. destruct (Hb m Hm Him) as [H|H]; [now left|right].
    apply in_or_app. now left.
Qed.

Lemma process_event_inv (o : oracle) (fd : string) (s s' : st) :
  process_event o fd s = inl s' -> thumbs_inv fd s'.
Proof.
  intros H. destruct (process_event_cases o fd s s' H)
    as [[-> Hno]|(media & th & th1 & lg1 & th2 & lg2 & th3 & lg3 & Hn & Hens & Hg & Hc & ->)].
  - intros media th Hs. exfalso. exact (Hno media th Hs).
  - intros media' th' Hs. simpl in Hs.
    rewrite get_node_set_same, Hn in Hs. inversion Hs; subst media' th'. simpl.
    destruct (gen_missing_spec _ _ _ _ _ _ _ Hg) as (_ & _ & _ & Hcov).
    destruct (cleanup_step_spec _ _ _ _ _ _ _ Hc) as ([n3 Hl3] & Hkeep & Hrm).
    split; [exact Hrm|].
    intros m Hm Him. destruct (Hcov m Hm Him) as [Ht|Hl].
    + left. apply Hkeep; [exact Ht|]. now apply orphan_thumb_name_false.
    + right. destruct Hl3 as [-> _]. apply in_or_app. now left.
Qed.

Lemma process_event_err (o : oracle) (fd : string) (s s' : st) (e : exn) :
  process_event o fd s = inr (e, s') -> s' = s.
Proof.
  unfold process_event.
  destruct (get_node (fs s) fd) as [[|[media|] [| |l]]|]; try discriminate.
  - destruct (mkdir_ok o fd); [|congruence].
    destruct (gen_missing _ _ _ _ _) as [th2 lg2].
    destruct (match th2 with TDir l => _ | _ => _ end) as [th3 lg3]. discriminate.
  - destruct (gen_missing _ _ _ _ _) as [th2 lg2].
    destruct (match th2 with TDir l => _ | _ => _ end) as [th3 lg3]. discriminate.
  - destruct (gen_missing _ _ _ _ _) as [th2 lg2].
    destruct (match th2 with TDir l => _ | _ => _ end) as [th3 lg3]. discriminate.
Qed.

Lemma process_all_preserve (o : oracle) (P : st -> Prop) :
  (forall fd s s', process_event o fd s = inl s' -> P s -> P s') ->
  forall evs s, P s -> P (res_st (process_all o evs s)).
Proof.
  intros Hstep evs. induction evs as [|[k ev] rest IH]; intros s Hs; simpl; auto.
  destruct (process_event o (folder ev) s) as [s1|[e s1]] eqn:E.
  - apply IH. eapply Hstep; eauto.
  - simpl. now rewrite (process_event_err _ _ _ _ _ E).
Qed.

Lemma thumbs_inv_step (o : oracle) (fd D : string) (s s' : st) :
  process_event o fd s = inl s' -> thumbs_inv D s -> thumbs_inv D s'.
Proof.
  intros H Hi. destruct (String.eqb_spec fd D) as [<-|Hne].
  - eapply process_event_inv; eauto.
  - apply (thumbs_inv_mono D s s').
    + now apply (process_event_frame o fd D s s').
    + destruct (process_event_log o fd s s' H) as [new [Hl _]]. eauto.
    + exact Hi.
Qed.

Lemma process_all_inv (o : oracle) (evs : manifest) :
  forall s s', process_all o evs s = inl s' ->
  forall k ev, In (k, ev) evs -> thumbs_inv (folder ev) s'.
Proof.
  induction evs as [|[k0 ev0] rest IH]; intros s s' H k ev Hin; [destruct Hin|].
  simpl in H. destruct (process_event o (folder ev0) s) as [s1|[e s1]] eqn:E;
    [|discriminate].
  destruct Hin as [Heq|Hin].
  - inversion Heq; subst k0 ev0.
    assert (Hpre := process_all_preserve o (thumbs_inv (folder ev))
                      (fun fd s s' Hs => thumbs_inv_step o fd (folder ev) s s' Hs)
                      rest s1 (process_event_inv o _ s s1 E)).
    now rewrite H in Hpre.
  - eapply IH; eauto.
Qed.

Lemma log_ok_step (o : oracle) (fd : string) (s s' : st) :
  process_event o fd s = inl s' ->
  Forall (entry_ok o) (log s) -> Forall (entry_ok o) (log s').
Proof.
  intros H Hl. destruct (process_event_log o fd s s' H) as [new [-> Hnew]].
  apply Forall_app. split; [exact Hl|].
  eapply Forall_impl; [|exact Hnew]. now intros e [He _].
Qed.

Lemma neutral_entry_ok (o : oracle) (e : log_entry) : neutral e -> entry_ok o e.
Proof. destruct e; simpl; tauto. Qed.

Lemma discover_spec (items : list (string * node)) :
  forall events existing s events' s',
  discover items events existing s = (events', s') ->
  fs s' = fs s /\ (Forall neutral (log s) -> Forall neutral (log s')).
Proof.
  induction items as [|[item nd] rest IH]; intros events existing s events' s' H;
    simpl in H; [inversion H; subst; auto|].
  destruct (is_dir nd && negb (String.eqb item "Thumbnail")); [destruct (Py.mem item existing)|].
  - eapply IH; eauto.
  - destruct (IH _ _ _ _ _ H) as [Hfs Hn]. split; [exact Hfs|].
    intros Hl. apply Hn. unfold emit; simpl. apply Forall_app; split; [exact Hl|].
    repeat constructor.
  - eapply IH; eauto.
Qed.

Lemma missing_keys_spec (f : fsys) (events : manifest) :
  forall s ks s', missing_keys f events s = (ks, s') ->
  fs s' = fs s /\ (Forall neutral (log s) -> Forall neutral (log s')).
Proof.
  induction events as [|[k ev] rest IH]; intros s ks s' H; simpl in H;
    [inversion H; subst; auto|].
  destruct (folder_exists f (folder ev)); [eapply IH; eauto|].
  destruct (missing_keys f rest (emit s (LFolderMissing (folder ev) k))) as [ks1 s1] eqn:E.
  inversion H; subst.
  destruct (IH _ _ _ E) as [Hfs Hn]. split; [exact Hfs|].
  intros Hl. apply Hn. unfold emit; simpl. apply Forall_app; split; [exact Hl|].
  repeat constructor.
Qed.

(** Steps 1 and 2 and the save leave the data root's entries as they are
    and print only neutral lines; then the step-3 loop runs. *)
Lemma sync_events_shape (o : oracle) (f : fsys) :
  data_isdir f = true ->
  exists evs s3,
    entries (fs s3) = entries f /\ Forall neutral (log s3) /\
    sync_events o f =
      match process_all o evs s3 with
      | inl s4 => Done evs (emit s4 LComplete)
      | inr (e, s4) => Raised e s4
      end.
Proof.
  intros Hd. unfold sync_events. rewrite Hd. simpl.
  destruct (discover (entries f) (load_events f)
              (map (fun kv => folder (snd kv)) (load_events f))
              {| fs := f; log := [LScan] |}) as [events1 s1] eqn:E1.
  destruct (missing_keys f events1 s1) as [ks s2] eqn:E2.
  destruct (discover_spec _ _ _ _ _ _ E1) as [Hf1 Hn1].
  destruct (missing_keys_spec _ _ _ _ _ E2) as [Hf2 Hn2].
  exists (remove_keys ks events1), (save_events o (remove_keys ks events1) s2).
  split; [|split].
  - unfold save_events. destruct (save_ok o); simpl; rewrite Hf2, Hf1; reflexivity.
  - assert (Hl2 : Forall neutral (log s2)) by (apply Hn2, Hn1; repeat constructor).
    unfold save_events. destruct (save_ok o); simpl;
      apply Forall_app; split; auto; repeat constructor.
  - reflexivity.
Qed.

Lemma get_node_entries (f f' : fsys) (n : string) :
  entries f' = entries f -> get_node f' n = get_node f n.
Proof. unfold get_node. now intros ->. Qed.

(** The facts about a pass that ran to "Sync complete.". *)
Lemma sync_done_facts (o : oracle) (f : fsys) (evs : manifest) (s : st) :
  sync_events o f = Done evs s ->
  exists s4, s = emit s4 LComplete /\ Forall (entry_ok o) (log s4) /\
    (forall k ev, In (k, ev) evs -> thumbs_inv (folder ev) s4).
Proof.
  intros H.
  destruct (data_isdir f) eqn:Hd; [|unfold sync_events in H; rewrite Hd in H; discriminate].
  destruct (sync_events_shape o f Hd) as (evs' & s3 & Hent & Hneu & Hsh).
  rewrite Hsh in H.
  destruct (process_all o evs' s3) as [s4|[e s4]] eqn:Ep; [|discriminate].
  inversion H; subst evs s. exists s4. split; [reflexivity|]. split.
  - assert (Hok := process_all_preserve o (fun s => Forall (entry_ok o) (log s))
                     (log_ok_step o) evs' s3).
    rewrite Ep in Hok. apply Hok.
    eapply Forall_impl; [|exact Hneu]. apply neutral_entry_ok.
  - eapply process_all_inv; eauto.
Qed.

Lemma keeps_thumb_step (o : oracle) (D : string) (media : list string) (m : string)
  (fd : string) (s s' : st) :
  In m media -> is_image m = true ->
  process_event o fd s = inl s' ->
  keeps_thumb D media (thumb_name m) s -> keeps_thumb D media (thumb_name m) s'.
Proof.
  intros Hm Him H [[l [Hn Hl]] Hg].
  destruct (String.eqb_spec fd D) as [<-|Hne].
  - destruct (process_event_cases o fd s s' H)
      as [[-> _]|(media0 & th & th1 & lg1 & th2 & lg2 & th3 & lg3 & Hn0 & Hens & Heg & Hc & ->)].
    + split; [exists l; auto|exact Hg].
    + rewrite Hn in Hn0. inversion Hn0; subst media0 th.
      destruct Hens as [(Habs & _)|(_ & -> & ->)]; [discriminate|].
      destruct (gen_missing_spec _ _ _ _ _ _ _ Heg) as ([n2 [Hl2 Hf2]] & Hmono & Htd & _).
      assert (Ht2 : In (thumb_name m) (tnames th2)) by (apply Hmono; exact Hl).
      destruct th2 as [| |l2]; try discriminate.
      destruct (cleanup_spec _ _ _ _ _ _ _ _ Hc) as ([n3 [Hl3 Hf3]] & _ & Htd3 & Hkeep & _).
      destruct th3 as [| |l3]; try discriminate.
      split.
      * exists l3. split.
        -- simpl. now rewrite get_node_set_same, Hn.
        -- apply (Hkeep _ Ht2). now apply orphan_thumb_name_false.
      * simpl. rewrite Hl3, Hl2. intros m' ok Hin.
        apply in_app_or in Hin as [Hin|Hin]; [apply in_app_or in Hin as [Hin|Hin]|].
        -- exact (Hg m' ok Hin).
        -- rewrite Forall_forall in Hf2. destruct (Hf2 _ Hin) as (m'' & b & Heq & _ & Hnot).
           inversion Heq; subst m''. intros E. apply Hnot. rewrite E. exact Hl.
        -- rewrite Forall_forall in Hf3. destruct (Hf3 _ Hin) as (t & b & Heq & _).
           discriminate.
  - destruct (process_event_log o fd s s' H) as [new [Hlog Hnew]]. split.
    + exists l. split; [|exact Hl]. rewrite (process_event_frame o fd D s s' H Hne). exact Hn.
    + rewrite Hlog. intros m' ok Hin. apply in_app_or in Hin as [Hin|Hin]; [now apply (Hg m' ok)|].
      rewrite Forall_forall in Hnew. destruct (Hnew _ Hin) as [_ Hab]. simpl in Hab.
      congruence.
Qed.

End SyncFacts.

(** ** Facts about the Media Lister *)

Module ListerFacts.

Lemma insert_sorted_In (x y : string) (l : list string) :
  In y (insert_sorted x l) <-> x = y \/ In y l.
Proof.
  induction l as [|z l IH]; simpl; [tauto|].
  destruct (String.leb x z); simpl; [tauto|]. rewrite IH. tauto.
Qed.

Lemma sort_strings_In (y : string) (l : list string) : In y (sort_strings l) <-> In y l.
Proof.
  induction l as [|x l IH]; simpl; [tauto|]. rewrite insert_sorted_In, IH.
  split; intros [H|H]; auto.
Qed.

Lemma lister_items_In (th : tnode) (x : string) (it : media_item) (l : list string) :
  In x l -> lister_item th x = Some it -> In it (lister_items th l).
Proof.
  induction l as [|y l IH]; simpl; [tauto|]. intros [<-|Hin] Hx.
  - rewrite Hx. now left.
  - destruct (lister_item th y); [right|]; auto.
Qed.

End ListerFacts.

(** * Claims *)

(** ** C4 *)

(** C4: with [N] media and pages of 20, the chunks of pages [1] to
    [ceil(N/20)] concatenate to the whole listing; page [ceil(N/20)] has
    [has_more = false]; page [ceil(N/20)+1] is an empty chunk with
    [has_more = false] and [next_page = None]. *)
Theorem pagination_law {A} (l : list A) :
  let K := (Z.of_nat (length l) + 19) / 20 in
  pages_concat l K = l /\
  snd (fst (Api.paginate l K)) = false /\
  Api.paginate l (K + 1) = ([], false, None).
Proof.
  intros K.
  assert (HKdef : K = (Z.of_nat (length l) + 19) / 20) by reflexivity.
  clearbody K.
  set (N := Z.of_nat (length l)) in *.
  assert (HNdef : N = Z.of_nat (length l)) by reflexivity.
  clearbody N.
  assert (HN : 0 <= N) by lia.
  assert (HK : 0 <= K) by (subst K; apply Z.div_pos; lia).
  assert (Hdm := Z.div_mod (N + 19) 20 ltac:(lia)).
  assert (Hmb := Z.mod_pos_bound (N + 19) 20 ltac:(lia)).
  rewrite <- HKdef in Hdm.
  split; [|split].
  - unfold pages_concat.
    rewrite <- seq_shift, map_map.
    rewrite (map_ext_in _ (fun i => firstn 20 (skipn (20 * i) l))).
    + rewrite PaginationFacts.concat_blocks. apply firstn_all2. lia.
    + intros i _. rewrite PaginationFacts.paginate_chunk by lia.
      f_equal. f_equal. lia.
  - unfold Api.paginate, Api.PAGE_SIZE. simpl.
    apply Z.ltb_ge. lia.
  - unfold Api.paginate, Py.slice, Py.norm_index, Api.PAGE_SIZE. simpl.
    rewrite <- HNdef.
    replace ((K + 1 - 1) * 20 <? 0) with false by (symmetry; apply Z.ltb_ge; lia).
    replace ((K + 1 - 1) * 20 + 20 <? 0) with false by (symmetry; apply Z.ltb_ge; lia).
    replace ((K + 1 - 1) * 20 + 20 <? N) with false by (symmetry; apply Z.ltb_ge; lia).
    rewrite !Z.min_r by lia. rewrite Z.sub_diag. reflexivity.
Qed.

(** ** C9 *)

(** C9: page 0 of a non-empty listing is an empty chunk with
    [has_more = true] and [next_page = 1]: the bounds [-20] and [0] are
    read with Python's negative-index slice rules. *)
Theorem page_zero_nonempty {A} (l : list A) :
  l <> [] -> Api.paginate l 0 = ([], true, Some 1).
Proof.
  intros Hne.
  assert (Hlen : (0 < length l)%nat) by (destruct l; [contradiction|simpl; lia]).
  unfold Api.paginate, Py.slice, Py.norm_index, Api.PAGE_SIZE. cbv zeta beta.
  change ((0 - 1) * 20) with (-20). change (-20 + 20) with 0.
  change (-20 <? 0) with true. change (0 <? 0) with false. cbv iota.
  replace (Z.to_nat (Z.min 0 (Z.of_nat (length l)) -
                     Z.max 0 (-20 + Z.of_nat (length l)))) with 0%nat by lia.
  replace (0 <? Z.of_nat (length l)) with true by (symmetry; apply Z.ltb_lt; lia).
  reflexivity.
Qed.

Lemma page_zero_nonempty_witness :
  [1%nat; 2%nat] <> [] /\ Api.paginate [1%nat; 2%nat] 0 = ([], true, Some 1).
Proof.
  split; [discriminate|]. apply (page_zero_nonempty [1%nat; 2%nat]). discriminate.
Defined.

(** ** C6 *)

(** C6: for an event whose password is non-empty, a caller who is not an
    admin and supplies another key is refused by [event_api] (401) and by
    [media_file] and [thumb_file] (403); with the matching key the listing is
    served, a media file present in [Media] is sent, a thumbnail present in
    [Thumbnail] is sent, and neither file handler answers 403. *)
Theorem locked_event_access (f : fsys) (events : manifest) (path : string)
  (ev : event) (p key : string) (is_admin : bool) (page : Z) (fname : string) :
  dict_get path events = Some ev -> password ev = Some p -> p <> "" ->
  ((key <> p -> is_admin = false ->
      Api.event_api f events path key is_admin page = Api.ApiUnauthorized /\
      Api.media_file f events path fname key is_admin = Api.Abort 403 /\
      Api.thumb_file f events path fname key is_admin = Api.Abort 403) /\
   (key = p ->
      Api.event_api f events path key is_admin page =
        (let '(c, h, n) := Api.paginate (get_event_media_list f ev) page in
         Api.ApiPage c h n) /\
      (forall files th, get_node f (folder ev) = Some (DirNode (Some files) th) ->
         In fname files ->
         Api.media_file f events path fname key is_admin =
           Api.Send (Api.LMedia (folder ev)) fname) /\
      (forall m l, get_node f (folder ev) = Some (DirNode m (TDir l)) ->
         In fname l ->
         Api.thumb_file f events path fname key is_admin =
           Api.Send (Api.LThumb (folder ev)) fname) /\
      Api.media_file f events path fname key is_admin <> Api.Abort 403 /\
      Api.thumb_file f events path fname key is_admin <> Api.Abort 403)).
Proof.
  intros Hget Hpw Hne.
  unfold Api.event_api, Api.media_file, Api.thumb_file, Api.global_thumb.
  rewrite Hget, (rejected_locked_false ev p key is_admin Hpw Hne).
  split.
  - intros Hkey Hadm. subst is_admin.
    destruct (String.eqb_spec key p) as [E|_]; [contradiction|].
    simpl. auto.
  - intros Hkey. subst key. rewrite String.eqb_refl. simpl.
    split; [reflexivity|]. split; [|split; [|split]].
    + intros files th Hn Hin. rewrite Hn. apply mem_In in Hin. now rewrite Hin.
    + intros m l Hn Hin. rewrite Hn. apply mem_In in Hin. now rewrite Hin.
    + destruct (get_node f (folder ev)) as [[|[files|] th]|];
        try discriminate; destruct (Py.mem fname files); discriminate.
    + destruct (get_node f (folder ev)) as [[|m [| |l]]|];
        try (destruct (Py.mem fname (global_thumbs f)); discriminate).
      destruct (Py.mem fname l); [discriminate|].
      destruct (Py.mem fname (global_thumbs f)); discriminate.
Qed.

(** ** C1 *)

(** C1 (amended): after a [sync_events] pass that completes, for every
    surviving event whose folder has a [Media] directory: a [.webp] file
    of [Thumbnail] whose base name is not the base name of a recognised
    media file is still there only if its removal failed (and was
    printed); every recognised image has its thumbnail [<base>.webp] or a
    generation attempt for it failed; the pass makes no generation attempt
    for a video.  Files of [Thumbnail] without the [.webp] extension are
    not touched. *)
Theorem sync_orphan_invariant (o : Sync.oracle) (f : fsys) (evs : manifest)
  (s : Sync.st) :
  Sync.sync_events o f = Sync.Done evs s ->
  forall key ev media th, In (key, ev) evs ->
  get_node (Sync.fs s) (folder ev) = Some (DirNode (Some media) th) ->
  (forall t, In t (tnames th) -> Sync.orphan (Sync.valid_media_bases media) t = true ->
     In (Sync.LRemoved (folder ev) t false) (Sync.log s) /\
     Sync.rm_ok o (folder ev) t = false) /\
  (forall m, In m media -> Sync.is_image m = true ->
     In (Sync.thumb_name m) (tnames th) \/
     In (Sync.LGen (folder ev) m false) (Sync.log s)) /\
  (forall m ok, In (Sync.LGen (folder ev) m ok) (Sync.log s) -> Sync.is_image m = true).
Proof.
  intros H key ev media th Hin Hn.
  destruct (SyncFacts.sync_done_facts o f evs s H) as (s4 & -> & Hok & Hinv).
  simpl in Hn. destruct (Hinv key ev Hin media th Hn) as [Ha Hb].
  rewrite Forall_forall in Hok. simpl.
  split; [|split].
  - intros t Ht Ho. specialize (Ha t Ht Ho). split; [apply in_or_app; now left|].
    symmetry. exact (Hok _ Ha).
  - intros m Hm Him. destruct (Hb m Hm Him) as [H1|H1]; [now left|right].
    apply in_or_app. now left.
  - intros m ok Hl. apply in_app_or in Hl as [Hl|[Hl|[]]]; [|discriminate].
    exact (Hok _ Hl).
Qed.

(** ** C3 *)

(** C3 (amended): an image's thumbnail named [<base>.webp], the name the
    Reconciler uses, that exists before a [sync_events] pass is still
    there after it, and no generation attempt writes it, whether the pass
    completes or stops on an exception. *)
Theorem sync_keeps_existing_thumbnail (o : Sync.oracle) (f : fsys) (D : string)
  (media l : list string) (m : string) :
  get_node f D = Some (DirNode (Some media) (TDir l)) ->
  In m media -> Sync.is_image m = true -> In (Sync.thumb_name m) l ->
  let s := Sync.out_st (Sync.sync_events o f) in
  (exists l', get_node (Sync.fs s) D = Some (DirNode (Some media) (TDir l')) /\
              In (Sync.thumb_name m) l') /\
  (forall m' ok, In (Sync.LGen D m' ok) (Sync.log s) -> Sync.thumb_name m' <> Sync.thumb_name m).
Proof.
  intros Hn Hm Him Hl s.
  assert (Hemit : forall s0 e, SyncInv.neutral e ->
            SyncInv.keeps_thumb D media (Sync.thumb_name m) s0 ->
            SyncInv.keeps_thumb D media (Sync.thumb_name m) (Sync.emit s0 e)).
  { intros s0 e He [Hk Hg]. split; [exact Hk|]. simpl. intros m' ok Hin.
    apply in_app_or in Hin as [Hin|[Hin|[]]]; [now apply (Hg m' ok)|]. subst e. exact (False_ind _ He). }
  enough (SyncInv.keeps_thumb D media (Sync.thumb_name m) s) by exact H.
  subst s. destruct (data_isdir f) eqn:Hd.
  - destruct (SyncFacts.sync_events_shape o f Hd) as (evs & s3 & Hent & Hneu & ->).
    assert (H3 : SyncInv.keeps_thumb D media (Sync.thumb_name m) s3).
    { split.
      - exists l. split; [|exact Hl]. rewrite (SyncFacts.get_node_entries f (Sync.fs s3) D Hent).
        exact Hn.
      - intros m' ok Hin. rewrite Forall_forall in Hneu. exact (False_ind _ (Hneu _ Hin)). }
    assert (Hpre := SyncFacts.process_all_preserve o
                      (SyncInv.keeps_thumb D media (Sync.thumb_name m))
                      (fun fd s s' Hs => SyncFacts.keeps_thumb_step o D media m fd s s' Hm Him Hs)
                      evs s3 H3).
    destruct (Sync.process_all o evs s3) as [s4|[e s4]]; simpl in *.
    + apply Hemit; [exact I|exact Hpre].
    + exact Hpre.
  - unfold Sync.sync_events. rewrite Hd. simpl. split.
    + exists l. split; [exact Hn|exact Hl].
    + intros m' ok [Hin|[Hin|[]]]; discriminate.
Qed.

(** ** C10 *)

(** C10: a [.3gp] file of [Media] is not recognised by the Reconciler, so
    when no recognised file shares its base name, that base name is not a
    valid media identifier and, after a completed pass in which removal
    works, the thumbnail [<base>.webp] is gone from [Thumbnail]; the Media
    Lister still lists the file, its extension being in [utils.VIDEO_EXTS]. *)
Theorem sync_3gp_thumbnail_orphaned (o : Sync.oracle) (f : fsys) (evs : manifest)
  (s : Sync.st) (key : string) (ev : event) (media : list string) (th : tnode)
  (fname : string) :
  Sync.sync_events o f = Sync.Done evs s -> In (key, ev) evs ->
  get_node (Sync.fs s) (folder ev) = Some (DirNode (Some media) th) ->
  In fname media -> Py.lower (snd (Py.splitext fname)) = ".3gp" ->
  (forall g, In g media -> Sync.sync_recognized g = true ->
     fst (Py.splitext g) <> fst (Py.splitext fname)) ->
  Sync.rm_ok o (folder ev) (Sync.thumb_name fname) = true ->
  Sync.sync_recognized fname = false /\
  ~ In (fst (Py.splitext fname)) (Sync.valid_media_bases media) /\
  ~ In (Sync.thumb_name fname) (tnames th) /\
  Py.mem (Py.lower (snd (Py.splitext fname))) VIDEO_EXTS = true /\
  (exists it, In it (get_event_media_list (Sync.fs s) ev) /\ filename it = fname).
Proof.
  intros H Hin Hn Hf H3gp Huniq Hrm.
  assert (Hrec : Sync.sync_recognized fname = false)
    by (unfold Sync.sync_recognized; now rewrite H3gp).
  assert (Hnv : ~ In (fst (Py.splitext fname)) (Sync.valid_media_bases media)).
  { unfold Sync.valid_media_bases. intros Hv. apply in_map_iff in Hv as (g & Hg & Hgin).
    apply filter_In in Hgin as [Hgm Hgr]. exact (Huniq g Hgm Hgr Hg). }
  split; [exact Hrec|]. split; [exact Hnv|]. split; [|split].
  - intros Ht.
    destruct (SyncFacts.sync_done_facts o f evs s H) as (s4 & -> & Hok & Hinv).
    simpl in Hn. destruct (Hinv key ev Hin media th Hn) as [Ha _].
    assert (Hne : snd (Py.splitext fname) <> EmptyString)
      by (intros E; rewrite E in H3gp; discriminate).
    assert (Ho : Sync.orphan (Sync.valid_media_bases media) (Sync.thumb_name fname) = true).
    { unfold Sync.orphan. rewrite (SyncFacts.splitext_thumb_name fname Hne).
      destruct (Py.mem (fst (Py.splitext fname)) (Sync.valid_media_bases media)) eqn:E.
      - apply mem_In in E. contradiction.
      - reflexivity. }
    specialize (Ha _ Ht Ho). rewrite Forall_forall in Hok.
    specialize (Hok _ Ha). simpl in Hok. congruence.
  - now rewrite H3gp.
  - unfold get_event_media_list. rewrite Hn.
    destruct (lister_item th fname) as [it|] eqn:Eit.
    + exists it. split.
      * apply (ListerFacts.lister_items_In th fname); [|exact Eit].
        now apply ListerFacts.sort_strings_In.
      * unfold lister_item in Eit. rewrite H3gp in Eit. simpl in Eit.
        destruct (tnode_has th (fname ++ ".webp")%string); inversion Eit; reflexivity.
    + unfold lister_item in Eit. rewrite H3gp in Eit. simpl in Eit.
      destruct (tnode_has th (fname ++ ".webp")%string); discriminate.
Qed.

(** ** Concrete runs *)

(** C1 witness: the spec's scenario, an untracked folder [Summer Trip]
    with two images, a video and a text file, and no [Thumbnail]
    directory, satisfies the amended invariant after a completed pass. *)
Lemma sync_orphan_invariant_witness :
  Sync.sync_events Fixtures.all_ok Fixtures.root_trip =
    Sync.Done (Fixtures.done_events (Sync.sync_events Fixtures.all_ok Fixtures.root_trip))
              (Fixtures.pass Fixtures.all_ok Fixtures.root_trip) /\
  get_node (Sync.fs (Fixtures.pass Fixtures.all_ok Fixtures.root_trip)) "Summer Trip" =
    Some (DirNode (Some ["b.png"; "a.jpg"; "c.mp4"; "x.txt"]) (TDir ["b.webp"; "a.webp"])) /\
  (forall m, In m ["b.png"; "a.jpg"; "c.mp4"; "x.txt"] -> Sync.is_image m = true ->
     In (Sync.thumb_name m) ["b.webp"; "a.webp"] \/
     In (Sync.LGen "Summer Trip" m false)
        (Sync.log (Fixtures.pass Fixtures.all_ok Fixtures.root_trip))).
Proof.
  assert (Hrun : Sync.sync_events Fixtures.all_ok Fixtures.root_trip =
    Sync.Done (Fixtures.done_events (Sync.sync_events Fixtures.all_ok Fixtures.root_trip))
              (Fixtures.pass Fixtures.all_ok Fixtures.root_trip))
    by (vm_compute; reflexivity).
  assert (Hnode : get_node (Sync.fs (Fixtures.pass Fixtures.all_ok Fixtures.root_trip)) "Summer Trip" =
    Some (DirNode (Some ["b.png"; "a.jpg"; "c.mp4"; "x.txt"]) (TDir ["b.webp"; "a.webp"])))
    by (vm_compute; reflexivity).
  split; [exact Hrun|]. split; [exact Hnode|].
  exact (proj1 (proj2 (sync_orphan_invariant Fixtures.all_ok Fixtures.root_trip _ _ Hrun
           "summer-trip" (Sync.default_event "Summer Trip")
           ["b.png"; "a.jpg"; "c.mp4"; "x.txt"] (TDir ["b.webp"; "a.webp"])
           ltac:(vm_compute; left; reflexivity) Hnode))).
Defined.

(** C1 counterexample: an event folder [E] whose [Media] holds the video
    [v.mp4] and whose [Thumbnail] holds [notes.txt].  After a completed
    pass in which every operation succeeds, [notes.txt] is still in
    [Thumbnail] although no media file has the base name [notes], and the
    recognised video [v.mp4] has no thumbnail [v.webp] while the pass made
    no generation attempt for it. *)
Lemma sync_orphan_invariant_cex :
  Sync.sync_events Fixtures.all_ok Fixtures.root_video =
    Sync.Done [("e", Sync.default_event "E")]
              (Fixtures.pass Fixtures.all_ok Fixtures.root_video) /\
  get_node (Sync.fs (Fixtures.pass Fixtures.all_ok Fixtures.root_video)) "E" =
    Some (DirNode (Some ["v.mp4"]) (TDir ["notes.txt"])) /\
  Sync.valid_media_bases ["v.mp4"] = ["v"] /\
  Sync.sync_recognized "v.mp4" = true /\
  Sync.log (Fixtures.pass Fixtures.all_ok Fixtures.root_video) =
    [Sync.LScan; Sync.LNewEvent "E"; Sync.LSaved; Sync.LComplete].
Proof.
  repeat split; vm_compute; reflexivity.
Qed.

(** C3 witness: an image [a.jpg] whose thumbnail [a.webp] exists keeps it,
    and the pass prints nothing about it. *)
Lemma sync_keeps_existing_thumbnail_witness :
  Sync.log (Fixtures.pass Fixtures.all_ok Fixtures.root_stem_thumb) =
    [Sync.LScan; Sync.LSaved; Sync.LComplete] /\
  exists l', get_node (Sync.fs (Fixtures.pass Fixtures.all_ok Fixtures.root_stem_thumb)) "E" =
               Some (DirNode (Some ["a.jpg"]) (TDir l')) /\ In "a.webp" l'.
Proof.
  split; [vm_compute; reflexivity|].
  exact (proj1 (sync_keeps_existing_thumbnail Fixtures.all_ok Fixtures.root_stem_thumb "E"
           ["a.jpg"] ["a.webp"] "a.jpg" ltac:(vm_compute; reflexivity)
           ltac:(left; reflexivity) ltac:(vm_compute; reflexivity)
           ltac:(vm_compute; left; reflexivity))).
Defined.

(** C3 counterexample: [api_upload] names the thumbnail of [photo.jpg]
    [photo.jpg.webp].  A pass in which every operation succeeds removes it
    as an orphan, since [photo.jpg] is not the base name of a media file,
    and generates [photo.webp] in its place. *)
Lemma sync_keeps_existing_thumbnail_cex :
  get_node Fixtures.root_uploaded "E" =
    Some (DirNode (Some ["photo.jpg"]) (TDir [("photo.jpg" ++ ".webp")%string])) /\
  Sync.is_image "photo.jpg" = true /\
  get_node (Sync.fs (Fixtures.pass Fixtures.all_ok Fixtures.root_uploaded)) "E" =
    Some (DirNode (Some ["photo.jpg"]) (TDir ["photo.webp"])) /\
  Sync.log (Fixtures.pass Fixtures.all_ok Fixtures.root_uploaded) =
    [Sync.LScan; Sync.LSaved; Sync.LGen "E" "photo.jpg" true;
     Sync.LRemoved "E" "photo.jpg.webp" true; Sync.LComplete].
Proof.
  repeat split; vm_compute; reflexivity.
Qed.

(** C6 witness: the event [party] with password [s3cret]: the key
    [guess] is refused by the three handlers, the key [s3cret] gets the
    listing, the image [a.jpg] and its thumbnail [a.jpg.webp]. *)
Lemma locked_event_access_witness :
  Api.event_api Fixtures.root_party Fixtures.party_events "party" "guess" false 1 =
    Api.ApiUnauthorized /\
  Api.media_file Fixtures.root_party Fixtures.party_events "party" "a.jpg" "guess" false =
    Api.Abort 403 /\
  Api.thumb_file Fixtures.root_party Fixtures.party_events "party" "a.jpg.webp" "guess" false =
    Api.Abort 403 /\
  Api.media_file Fixtures.root_party Fixtures.party_events "party" "a.jpg" "s3cret" false =
    Api.Send (Api.LMedia "Party") "a.jpg" /\
  Api.thumb_file Fixtures.root_party Fixtures.party_events "party" "a.jpg.webp" "s3cret" false =
    Api.Send (Api.LThumb "Party") "a.jpg.webp".
Proof.
  destruct (locked_event_access Fixtures.root_party Fixtures.party_events "party"
              Fixtures.party "s3cret" "guess" false 1 "a.jpg"
              eq_refl eq_refl ltac:(discriminate)) as [Hno _].
  destruct (Hno ltac:(discriminate) eq_refl) as (H1 & H2 & _).
  destruct (locked_event_access Fixtures.root_party Fixtures.party_events "party"
              Fixtures.party "s3cret" "guess" false 1 "a.jpg.webp"
              eq_refl eq_refl ltac:(discriminate)) as [Hno' _].
  destruct (Hno' ltac:(discriminate) eq_refl) as (_ & _ & H3).
  destruct (locked_event_access Fixtures.root_party Fixtures.party_events "party"
              Fixtures.party "s3cret" "s3cret" false 1 "a.jpg"
              eq_refl eq_refl ltac:(discriminate)) as [_ Hyes].
  destruct (Hyes eq_refl) as (_ & H4 & _).
  destruct (locked_event_access Fixtures.root_party Fixtures.party_events "party"
              Fixtures.party "s3cret" "s3cret" false 1 "a.jpg.webp"
              eq_refl eq_refl ltac:(discriminate)) as [_ Hyes'].
  destruct (Hyes' eq_refl) as (_ & _ & H5 & _).
  split; [exact H1|]. split; [exact H2|]. split; [exact H3|]. split.
  - exact (H4 ["a.jpg"; "b.mp4"] (TDir ["a.jpg.webp"]) eq_refl (or_introl eq_refl)).
  - exact (H5 (Some ["a.jpg"; "b.mp4"]) ["a.jpg.webp"] eq_refl (or_introl eq_refl)).
Defined.

(** C10 witness: the event [gallery] holds [clip.3gp] and [b.jpg] with
    the thumbnails [clip.webp] and [b.webp]; after the pass [clip.webp]
    is gone while the Media Lister still lists [clip.3gp]. *)
Lemma sync_3gp_thumbnail_orphaned_witness :
  ~ In "clip.webp" (tnames (TDir ["b.webp"])) /\
  exists it, In it (get_event_media_list (Sync.fs (Fixtures.pass Fixtures.all_ok Fixtures.root_3gp))
                                          Fixtures.gallery) /\
             filename it = "clip.3gp".
Proof.
  destruct (sync_3gp_thumbnail_orphaned Fixtures.all_ok Fixtures.root_3gp
              [("gallery", Fixtures.gallery)] (Fixtures.pass Fixtures.all_ok Fixtures.root_3gp)
              "gallery" Fixtures.gallery ["clip.3gp"; "b.jpg"] (TDir ["b.webp"]) "clip.3gp"
              ltac:(vm_compute; reflexivity) ltac:(left; reflexivity)
              ltac:(vm_compute; reflexivity) ltac:(left; reflexivity)
              ltac:(vm_compute; reflexivity)
              ltac:(intros g [<-|[<-|[]]]; vm_compute; discriminate)
              eq_refl) as (_ & _ & H3 & _ & H5).
  split; [exact H3|exact H5].
Defined.

(** ** C2 *)

(** C2: a manifest record [foo] for the folder [data1], and an untracked
    folder [Foo] whose derived key is also [foo].  The first pass
    overwrites the record [foo] with one for [Foo]; the second pass, on
    the same folders, finds [data1] untracked and adds a record for it, so
    the two passes leave different manifests. *)
Theorem sync_rerun_changes_manifest :
  let s1 := Fixtures.pass Fixtures.all_ok Fixtures.root_collide in
  let s2 := Fixtures.pass Fixtures.all_ok (Sync.fs s1) in
  entries (Sync.fs s1) = entries Fixtures.root_collide /\
  entries (Sync.fs s2) = entries Fixtures.root_collide /\
  events_file (Sync.fs s1) = Some [("foo", Sync.default_event "Foo")] /\
  events_file (Sync.fs s2) =
    Some [("foo", Sync.default_event "Foo"); ("data1", Sync.default_event "data1")] /\
  In Sync.LComplete (Sync.log s1) /\ In Sync.LComplete (Sync.log s2) /\
  events_file (Sync.fs s1) <> events_file (Sync.fs s2).
Proof.
  vm_compute. repeat split; try reflexivity.
  - do 3 right. left. reflexivity.
  - do 3 right. left. reflexivity.
  - discriminate.
Qed.

(** ** C5 *)

(** C5: the Reconciler's [generate_thumbnail] never applies the EXIF
    orientation, while the upload path's generator does so first; on a
    photo tagged with orientation 6 the Reconciler's operations are a
    resize and a save of the unrotated picture. *)
Theorem sync_thumbnail_ignores_orientation :
  (forall img ok, ~ In Thumb.OpExifTranspose (snd (Thumb.sync_generate_thumbnail (Some img) ok))) /\
  (forall img ok q, hd_error (snd (Thumb.utils_generate_thumbnail (Some img) ok q)) =
                    Some Thumb.OpExifTranspose) /\
  Thumb.sync_generate_thumbnail (Some Fixtures.rotated_photo) true =
    (true, [Thumb.OpThumbnail; Thumb.OpSave "WEBP" 80]) /\
  Thumb.exif_transpose Fixtures.rotated_photo <> Fixtures.rotated_photo.
Proof.
  split; [|split; [|split]].
  - intros img ok. unfold Thumb.sync_generate_thumbnail, Thumb.convert_ops. cbn [snd].
    destruct (Py.mem (Thumb.mode img) ["RGBA"; "P"]); simpl; intros H;
      repeat (destruct H as [H|H]; [discriminate|]); exact H.
  - reflexivity.
  - reflexivity.
  - vm_compute. discriminate.
Qed.

(** ** C7 *)

(** C7: when [os.makedirs] fails for the [Thumbnail] directory of the
    first event, the exception leaves [sync_events]: the pass does not
    print its completion and the second event's missing thumbnail is not
    generated, although it is when the directory can be created. *)
Theorem sync_makedirs_failure_aborts :
  Sync.sync_events Fixtures.mkdir_fails_for_trip Fixtures.root_readonly =
    Sync.Raised (Sync.OSError "Trip/Thumbnail")
      (Fixtures.pass Fixtures.mkdir_fails_for_trip Fixtures.root_readonly) /\
  Sync.log (Fixtures.pass Fixtures.mkdir_fails_for_trip Fixtures.root_readonly) =
    [Sync.LScan; Sync.LNewEvent "Trip"; Sync.LNewEvent "Later"; Sync.LSaved] /\
  get_node (Sync.fs (Fixtures.pass Fixtures.mkdir_fails_for_trip Fixtures.root_readonly)) "Later" =
    Some (DirNode (Some ["b.jpg"]) (TDir [])) /\
  get_node (Sync.fs (Fixtures.pass Fixtures.all_ok Fixtures.root_readonly)) "Later" =
    Some (DirNode (Some ["b.jpg"]) (TDir ["b.webp"])).
Proof.
  repeat split; vm_compute; reflexivity.
Qed.

(** ** C8 *)

(** C8: for a capture that opens, [generate_video_thumbnail] seeks to
    frame [int(fps)] (one second in) when [fps > 0] and stays at frame 0
    otherwise; when the read there fails it seeks to frame 0 and reads
    once more; when that read fails too it releases the capture, writes
    nothing and returns [None], which is falsy. *)
Theorem video_thumbnail_retry (c : Video.capture) :
  Video.opened c = true ->
  let pos := if negb (Qle_bool (Video.fps c) 0) then Qfloor (Video.fps c) else 0 in
  let seek := if negb (Qle_bool (Video.fps c) 0) then [Video.VSet pos] else [] in
  (forall fr, Video.frame_at c pos = Some fr ->
     Video.generate_video_thumbnail c =
       if Video.encode_ok c fr
       then (Video.PyTrue, seek ++ [Video.VRead pos true; Video.VRelease; Video.VWrite])
       else (Video.PyFalse, seek ++ [Video.VRead pos true; Video.VRelease])) /\
  (forall fr, Video.frame_at c pos = None -> Video.frame_at c 0 = Some fr ->
     Video.generate_video_thumbnail c =
       if Video.encode_ok c fr
       then (Video.PyTrue, seek ++ [Video.VRead pos false; Video.VSet 0; Video.VRead 0 true;
                                    Video.VRelease; Video.VWrite])
       else (Video.PyFalse, seek ++ [Video.VRead pos false; Video.VSet 0; Video.VRead 0 true;
                                     Video.VRelease])) /\
  (Video.frame_at c pos = None -> Video.frame_at c 0 = None ->
     Video.generate_video_thumbnail c =
       (Video.PyNone, seek ++ [Video.VRead pos false; Video.VSet 0; Video.VRead 0 false;
                               Video.VRelease]) /\
     Video.truthy (fst (Video.generate_video_thumbnail c)) = false /\
     ~ In Video.VWrite (snd (Video.generate_video_thumbnail c))).
Proof.
  intros Ho pos seek. unfold Video.generate_video_thumbnail. rewrite Ho. simpl negb.
  subst pos seek.
  destruct (negb (Qle_bool (Video.fps c) 0)); refine (conj _ (conj _ _)).
  all: intros; try congruence.
  all: repeat match goal with H : Video.frame_at _ _ = _ |- _ => rewrite H; clear H end.
  all: cbn [fst snd]; rewrite <- ?app_assoc; cbn [app].
  all: try (destruct (Video.encode_ok c fr); reflexivity).
  all: split; [reflexivity|split; [reflexivity|]]; cbn [snd In]; intros Hw;
         repeat (destruct Hw as [Hw|Hw]; [discriminate|]); exact Hw.
Qed.

(** C8 witness: a 30 fps stream none of whose frames decode: two reads,
    at frames 30 and 0, and [None]. *)
Lemma video_thumbnail_retry_witness :
  Video.generate_video_thumbnail Fixtures.undecodable =
    (Video.PyNone, [Video.VSet 30; Video.VRead 30 false; Video.VSet 0; Video.VRead 0 false;
                    Video.VRelease]).
Proof.
  exact (proj1 (proj2 (proj2 (video_thumbnail_retry Fixtures.undecodable eq_refl))
                  eq_refl eq_refl)).
Defined.


(** * Further properties *)

(** ** Helper facts *)

Module TextFacts.
Import Text Shape.

Lemma all_chars_app (p : ascii -> bool) (a b : string) :
  all_chars p (a ++ b) = all_chars p a && all_chars p b.
Proof.
  induction a as [|c a IH]; simpl; [reflexivity|]. rewrite IH. apply andb_assoc.
Qed.

Lemma no_dd_app_l (a b : string) : no_double_dash (a ++ b) = true -> no_double_dash a = true.
Proof.
  induction a as [|c a IH]; simpl; [reflexivity|].
  intros H. apply andb_true_iff in H as [H1 H2]. rewrite (IH H2), andb_true_r.
  destruct a as [|d a]; simpl in *; [apply orb_true_r|exact H1].
Qed.

Lemma no_dd_app_r (a b : string) : no_double_dash (a ++ b) = true -> no_double_dash b = true.
Proof.
  induction a as [|c a IH]; simpl; [tauto|].
  intros H. apply andb_true_iff in H as [_ H2]. exact (IH H2).
Qed.

Lemma lstrip_suffix (p : ascii -> bool) (s : string) :
  exists pre, s = (pre ++ lstrip_by p s)%string.
Proof.
  induction s as [|c s IH]; simpl.
  - exists "". reflexivity.
  - destruct (p c).
    + destruct IH as [pre E]. exists (String c pre). simpl. now f_equal.
    + exists "". reflexivity.
Qed.

Lemma rstrip_prefix (p : ascii -> bool) (s : string) :
  exists suf, s = (rstrip_by p s ++ suf)%string.
Proof.
  induction s as [|c s IH]; simpl.
  - exists "". reflexivity.
  - destruct IH as [suf E].
    destruct (String.eqb (rstrip_by p s) "" && p c) eqn:Ec.
    + exists (String c s). reflexivity.
    + exists suf. simpl. now f_equal.
Qed.

Lemma lstrip_not_starts (p : ascii -> bool) (s : string) :
  starts_with p (lstrip_by p s) = false.
Proof.
  induction s as [|c s IH]; simpl; [reflexivity|].
  destruct (p c) eqn:E; [exact IH|simpl; exact E].
Qed.

Lemma rstrip_not_ends (p : ascii -> bool) (s : string) :
  ends_with p (rstrip_by p s) = false.
Proof.
  induction s as [|c s IH]; simpl; [reflexivity|].
  destruct (String.eqb (rstrip_by p s) "") eqn:Er, (p c) eqn:Ep; simpl;
    try reflexivity; rewrite Er; try exact Ep; exact IH.
Qed.

Lemma starts_with_app (p : ascii -> bool) (a b : string) :
  a <> "" -> starts_with p (a ++ b) = starts_with p a.
Proof. destruct a; [congruence|reflexivity]. Qed.

Lemma rstrip_keeps_start (p q : ascii -> bool) (s : string) :
  starts_with q s = false -> starts_with q (rstrip_by p s) = false.
Proof.
  intros H. destruct (rstrip_prefix p s) as [suf E].
  destruct (rstrip_by p s) as [|c r] eqn:Er; [reflexivity|].
  rewrite E in H. exact H.
Qed.

Lemma all_chars_lstrip (p q : ascii -> bool) (s : string) :
  all_chars q s = true -> all_chars q (lstrip_by p s) = true.
Proof.
  destruct (lstrip_suffix p s) as [pre E]. rewrite E at 1.
  rewrite all_chars_app. now intros [_ H]%andb_true_iff.
Qed.

Lemma all_chars_rstrip (p q : ascii -> bool) (s : string) :
  all_chars q s = true -> all_chars q (rstrip_by p s) = true.
Proof.
  destruct (rstrip_prefix p s) as [suf E]. rewrite E at 1.
  rewrite all_chars_app. now intros [H _]%andb_true_iff.
Qed.

Lemma all_chars_strip (p q : ascii -> bool) (s : string) :
  all_chars q s = true -> all_chars q (strip_by p s) = true.
Proof. intros H. apply all_chars_rstrip, all_chars_lstrip, H. Qed.

Lemma no_dd_strip (p : ascii -> bool) (s : string) :
  no_double_dash s = true -> no_double_dash (strip_by p s) = true.
Proof.
  intros H. unfold strip_by.
  destruct (lstrip_suffix p s) as [pre E]. rewrite E in H. apply no_dd_app_r in H.
  destruct (rstrip_prefix p (lstrip_by p s)) as [suf E']. rewrite E' in H.
  exact (no_dd_app_l _ _ H).
Qed.

Lemma all_chars_filter (p : ascii -> bool) (s : string) : all_chars p (filter_chars p s) = true.
Proof.
  induction s as [|c s IH]; simpl; [reflexivity|]. destruct (p c) eqn:E; simpl; [rewrite E|]; auto.
Qed.

Lemma all_chars_filter_mono (p q : ascii -> bool) (s : string) :
  all_chars q s = true -> all_chars q (filter_chars p s) = true.
Proof.
  induction s as [|c s IH]; simpl; [reflexivity|].
  intros [Hc Hs]%andb_true_iff. destruct (p c); simpl; [rewrite Hc|]; auto.
Qed.

Lemma all_chars_impl (p q : ascii -> bool) (s : string) :
  (forall c, p c = true -> q c = true) -> all_chars p s = true -> all_chars q s = true.
Proof.
  intros Hpq. induction s as [|c s IH]; simpl; [reflexivity|].
  intros [Hc Hs]%andb_true_iff. rewrite (Hpq c Hc). simpl. auto.
Qed.

Lemma filter_chars_id (p : ascii -> bool) (s : string) :
  all_chars p s = true -> filter_chars p s = s.
Proof.
  induction s as [|c s IH]; simpl; [reflexivity|].
  intros [Hc Hs]%andb_true_iff. rewrite Hc. f_equal. auto.
Qed.

Lemma lstrip_id (p : ascii -> bool) (s : string) :
  starts_with p s = false -> lstrip_by p s = s.
Proof. destruct s as [|c s]; simpl; [reflexivity|]. intros E. now rewrite E. Qed.

Lemma rstrip_id (p : ascii -> bool) (s : string) :
  ends_with p s = false -> rstrip_by p s = s.
Proof.
  induction s as [|c s IH]; simpl; [reflexivity|].
  destruct (String.eqb s "") eqn:Es.
  - apply String.eqb_eq in Es. subst s. simpl. intros E. now rewrite E.
  - intros H. rewrite (IH H), Es. reflexivity.
Qed.

Lemma strip_id (p : ascii -> bool) (s : string) :
  starts_with p s = false -> ends_with p s = false -> strip_by p s = s.
Proof. intros H1 H2. unfold strip_by. rewrite (lstrip_id p s H1). exact (rstrip_id p s H2). Qed.

Lemma ends_with_none (p : ascii -> bool) (s : string) :
  all_chars (fun c => negb (p c)) s = true -> ends_with p s = false.
Proof.
  induction s as [|c s IH]; simpl; [reflexivity|].
  intros [Hc Hs]%andb_true_iff. destruct (String.eqb s ""); [now apply negb_true_iff|auto].
Qed.

Lemma starts_with_none (p : ascii -> bool) (s : string) :
  all_chars (fun c => negb (p c)) s = true -> starts_with p s = false.
Proof.
  destruct s as [|c s]; simpl; [reflexivity|]. intros [Hc _]%andb_true_iff. now apply negb_true_iff.
Qed.

Lemma all_chars_In (p : ascii -> bool) (s : string) (c : ascii) :
  all_chars p s = true -> In c (list_ascii_of_string s) -> p c = true.
Proof.
  induction s as [|c' s IH]; simpl; [tauto|].
  intros [H1 H2]%andb_true_iff [<-|Hin]; auto.
Qed.

End TextFacts.

Module SlugFacts.
Import Text Shape TextFacts.

Ltac by_chars := intros c; destruct c as [[] [] [] [] [] [] [] []]; reflexivity.

Lemma upper_lower_ascii (c : ascii) : is_upper (Py.lower_ascii c) = false.
Proof. revert c; by_chars. Qed.

Lemma lower_no_upper (s : string) : all_chars (fun c => negb (is_upper c)) (Py.lower s) = true.
Proof.
  induction s as [|c s IH]; simpl; [reflexivity|]. now rewrite upper_lower_ascii, IH.
Qed.

Lemma lower_id (s : string) : all_chars (fun c => negb (is_upper c)) s = true -> Py.lower s = s.
Proof.
  induction s as [|c s IH]; simpl; [reflexivity|].
  intros [Hc Hs]%andb_true_iff. rewrite (IH Hs). f_equal.
  revert c Hc. intros c. destruct c as [[] [] [] [] [] [] [] []]; simpl; try reflexivity; discriminate.
Qed.

Lemma all_chars_and (p q : ascii -> bool) (s : string) :
  all_chars p s = true -> all_chars q s = true -> all_chars (fun c => p c && q c) s = true.
Proof.
  induction s as [|c s IH]; simpl; [reflexivity|].
  intros [H1 H2]%andb_true_iff [H3 H4]%andb_true_iff. rewrite H1, H3. simpl. auto.
Qed.

Lemma kept_char (c : ascii) :
  kept c = true -> Slug.is_sep c = false -> slug_char c = true.
Proof. revert c; intros c; destruct c as [[] [] [] [] [] [] [] []]; simpl; first [reflexivity | discriminate | intros; discriminate]. Qed.

Lemma collapse_chars (b : bool) (s : string) :
  all_chars kept s = true -> all_chars slug_char (Slug.collapse_seps b s) = true.
Proof.
  revert b. induction s as [|c s IH]; intros b; simpl; [reflexivity|].
  intros [Hc Hs]%andb_true_iff.
  destruct (Slug.is_sep c) eqn:Es; [destruct b|]; simpl; auto.
  rewrite (kept_char c Hc Es). simpl. auto.
Qed.

Lemma sep_not_dash (c : ascii) : Slug.is_sep c = false -> Slug.is_dash c = false.
Proof. revert c; intros c; destruct c as [[] [] [] [] [] [] [] []]; simpl; first [reflexivity | discriminate]. Qed.

Lemma collapse_no_dd (b : bool) (s : string) :
  no_double_dash (Slug.collapse_seps b s) = true /\
  (b = true -> starts_with Slug.is_dash (Slug.collapse_seps b s) = false).
Proof.
  revert b. induction s as [|c s IH]; intros b; simpl; [split; reflexivity|].
  destruct (Slug.is_sep c) eqn:Es.
  - destruct b.
    + destruct (IH true) as [H1 H2]. split; [exact H1|intros _; exact (H2 eq_refl)].
    + destruct (IH true) as [H1 H2]. split; [|discriminate].
      simpl. rewrite (H2 eq_refl), H1. reflexivity.
    - destruct (IH false) as [H1 _]. simpl. rewrite (sep_not_dash c Es), H1.
      split; [reflexivity|intros _; reflexivity].
Qed.

Lemma slugify_is_slug_gen (text : string) : is_slug (Slug.slugify text) = true.
Proof.
  unfold Slug.slugify, is_slug.
  set (t1 := strip (Py.lower text)).
  set (t2 := filter_chars _ t1).
  set (t3 := Slug.collapse_seps false t2).
  assert (H2 : all_chars kept t2 = true).
  { apply all_chars_and.
    - apply all_chars_filter.
    - apply all_chars_filter_mono. apply all_chars_strip. apply lower_no_upper. }
  assert (H3 : all_chars slug_char t3 = true) by (apply collapse_chars, H2).
  destruct (collapse_no_dd false t2) as [Hdd _]. fold t3 in Hdd.
  rewrite (all_chars_strip _ _ _ H3), (no_dd_strip _ _ Hdd).
  unfold strip_by. rewrite rstrip_keeps_start by apply lstrip_not_starts.
  rewrite rstrip_not_ends. reflexivity.
Qed.

Lemma slug_char_facts (c : ascii) :
  slug_char c = true ->
  negb (is_upper c) = true /\ negb (is_space c) = true /\
  (is_word c || is_space c || Slug.is_dash c) = true /\ (Slug.is_sep c = true -> Slug.is_dash c = true).
Proof. revert c; intros c; destruct c as [[] [] [] [] [] [] [] []]; simpl; first [ intros; discriminate | repeat split; reflexivity | repeat split; intros; first [reflexivity | discriminate] ]. Qed.

Lemma collapse_id (b : bool) (s : string) :
  all_chars slug_char s = true -> no_double_dash s = true ->
  (b = true -> starts_with Slug.is_dash s = false) -> Slug.collapse_seps b s = s.
Proof.
  revert b. induction s as [|c s IH]; intros b; simpl; [reflexivity|].
  intros [Hc Hs]%andb_true_iff [Hd Hn]%andb_true_iff Hb.
  destruct (slug_char_facts c Hc) as (_ & _ & _ & Hsep).
  destruct (Slug.is_sep c) eqn:Es.
  - specialize (Hsep eq_refl). destruct b; [now rewrite (Hb eq_refl) in Hsep|].
    rewrite Hsep in Hd. simpl in Hd. apply negb_true_iff in Hd.
    unfold Slug.is_dash in Hsep. apply Ascii.eqb_eq in Hsep. subst c.
    f_equal. apply IH; auto.
  - f_equal. apply IH; auto. discriminate.
Qed.

Lemma slugify_fixes_slug (s : string) : is_slug s = true -> Slug.slugify s = s.
Proof.
  unfold is_slug. intros H.
  apply andb_true_iff in H as [H Hdd]. apply andb_true_iff in H as [H He].
  apply andb_true_iff in H as [Hc Hs]. apply negb_true_iff in Hs, He.
  unfold Slug.slugify.
  rewrite lower_id by (apply (all_chars_impl slug_char); [intros c Hc'; apply (slug_char_facts c Hc')|exact Hc]).
  assert (Hnosp : all_chars (fun c => negb (is_space c)) s = true)
    by (apply (all_chars_impl slug_char); [intros c Hc'; apply (slug_char_facts c Hc')|exact Hc]).
  unfold strip. rewrite (strip_id is_space s) by (first [apply starts_with_none | apply ends_with_none]; exact Hnosp).
  rewrite filter_chars_id
    by (apply (all_chars_impl slug_char); [intros c Hc'; apply (slug_char_facts c Hc')|exact Hc]).
  rewrite collapse_id by (auto; discriminate).
  apply strip_id; assumption.
Qed.

End SlugFacts.

Module SecureFacts.
Import Text Shape TextFacts.

Lemma string_app_assoc (a b c : string) : ((a ++ b) ++ c)%string = (a ++ (b ++ c))%string.
Proof. induction a as [|x a IH]; simpl; [reflexivity|]. now rewrite IH. Qed.

Lemma string_app_nil_r (a : string) : (a ++ "")%string = a.
Proof. induction a as [|x a IH]; simpl; [reflexivity|]. now rewrite IH. Qed.

Lemma secure_is_secure_gen (fn : string) : is_secure_name (Werkzeug.secure_filename fn) = true.
Proof.
  unfold is_secure_name, Werkzeug.secure_filename.
  rewrite all_chars_strip by apply all_chars_filter.
  unfold strip_by. rewrite rstrip_keeps_start by apply lstrip_not_starts.
  rewrite rstrip_not_ends. reflexivity.
Qed.

Lemma fn_char_facts (c : ascii) :
  Werkzeug.is_fn_char c = true -> negb (Ascii.eqb c "/") = true /\ negb (is_space c) = true.
Proof. revert c; intros c; destruct c as [[] [] [] [] [] [] [] []]; simpl; first [ intros; discriminate | split; reflexivity ]. Qed.

Lemma replace_char_id (a b : ascii) (s : string) :
  all_chars (fun c => negb (Ascii.eqb c a)) s = true -> Py.replace_char a b s = s.
Proof.
  induction s as [|c s IH]; simpl; [reflexivity|].
  intros [Hc Hs]%andb_true_iff. apply negb_true_iff in Hc. rewrite Hc, (IH Hs). reflexivity.
Qed.

Lemma split_ws_from_nospace (cur s : string) :
  all_chars (fun c => negb (is_space c)) s = true ->
  split_ws_from cur s = if String.eqb (cur ++ s) "" then [] else [(cur ++ s)%string].
Proof.
  revert cur. induction s as [|c s IH]; intros cur; simpl.
  - now rewrite string_app_nil_r.
  - intros [Hc Hs]%andb_true_iff. apply negb_true_iff in Hc. rewrite Hc, (IH _ Hs).
    now rewrite string_app_assoc.
Qed.

Lemma secure_fixes_secure (s : string) : is_secure_name s = true -> Werkzeug.secure_filename s = s.
Proof.
  unfold is_secure_name. intros H.
  apply andb_true_iff in H as [H He]. apply andb_true_iff in H as [Hc Hs].
  apply negb_true_iff in Hs, He.
  unfold Werkzeug.secure_filename.
  rewrite replace_char_id
    by (apply (all_chars_impl Werkzeug.is_fn_char); [intros c Hc'; apply (fn_char_facts c Hc')|exact Hc]).
  unfold split_ws.
  rewrite split_ws_from_nospace
    by (apply (all_chars_impl Werkzeug.is_fn_char); [intros c Hc'; apply (fn_char_facts c Hc')|exact Hc]).
  simpl. destruct (String.eqb s "") eqn:E.
  - apply String.eqb_eq in E. subst s. reflexivity.
  - simpl. rewrite filter_chars_id by exact Hc. apply strip_id; assumption.
Qed.

End SecureFacts.

Module DictFacts.

Lemma dict_get_set_same (k : string) (v : event) (d : manifest) :
  dict_get k (dict_set k v d) = Some v.
Proof.
  induction d as [|[k' v'] d IH]; simpl; [now rewrite String.eqb_refl|].
  destruct (String.eqb_spec k k'); simpl.
  - subst. now rewrite String.eqb_refl.
  - apply String.eqb_neq in n. now rewrite n.
Qed.

Lemma dict_get_set_other (k k' : string) (v : event) (d : manifest) :
  k' <> k -> dict_get k' (dict_set k v d) = dict_get k' d.
Proof.
  intros Hne. induction d as [|[k0 v0] d IH]; simpl.
  - apply String.eqb_neq in Hne. now rewrite Hne.
  - destruct (String.eqb_spec k k0); simpl.
    + subst k0. apply String.eqb_neq in Hne. now rewrite Hne.
    + destruct (String.eqb k' k0); auto.
Qed.

Lemma dict_set_new (k : string) (v : event) (d : manifest) :
  dict_get k d = None -> dict_set k v d = d ++ [(k, v)].
Proof.
  induction d as [|[k' v'] d IH]; simpl; [reflexivity|].
  destruct (String.eqb k k'); [discriminate|]. intros H. now rewrite IH.
Qed.

Lemma dict_set_keys (k : string) (v : event) (d : manifest) :
  dict_get k d <> None -> map fst (dict_set k v d) = map fst d.
Proof.
  induction d as [|[k' v'] d IH]; simpl; [congruence|].
  destruct (String.eqb k k'); simpl; [reflexivity|]. intros H. now rewrite IH.
Qed.

Lemma dict_get_del_other (k k' : string) (d : manifest) :
  k' <> k -> dict_get k' (dict_del k d) = dict_get k' d.
Proof.
  intros Hne. induction d as [|[k0 v0] d IH]; simpl; [reflexivity|].
  destruct (String.eqb_spec k k0); simpl.
  - subst k0. apply String.eqb_neq in Hne. now rewrite Hne.
  - destruct (String.eqb k' k0); auto.
Qed.

Lemma dict_get_none (k : string) (d : manifest) :
  ~ In k (map fst d) -> dict_get k d = None.
Proof.
  induction d as [|[k' v'] d IH]; simpl; [reflexivity|].
  intros Hn. destruct (String.eqb_spec k k'); [subst; tauto|]. apply IH. tauto.
Qed.

Lemma dict_get_del_same (k : string) (d : manifest) :
  NoDup (map fst d) -> dict_get k (dict_del k d) = None.
Proof.
  induction d as [|[k' v'] d IH]; simpl; [reflexivity|].
  intros Hnd. inversion Hnd as [|? ? Hn Hnd']; subst.
  destruct (String.eqb_spec k k'); simpl.
  - subst k'. now apply dict_get_none.
  - apply String.eqb_neq in n. rewrite n. auto.
Qed.

End DictFacts.

Module AdminFacts.
Import Admin.

Lemma cover_upload_file (o : oracle) (ef : string) (thumb : option string) (r : resp)
  (file : option manifest) (effs : list effect) :
  snd (fst (cover_upload o ef thumb r file effs)) = file /\
  (fst (fst (cover_upload o ef thumb r file effs)) = r \/
   fst (fst (cover_upload o ef thumb r file effs)) = Status 500).
Proof.
  unfold cover_upload.
  destruct thumb as [tfn|]; [|auto].
  destruct (String.eqb tfn ""); [auto|].
  destruct (Py.mem _ IMAGE_EXTS); [|auto].
  destruct (upload_save_ok o _); [|auto].
  destruct (path_exists o _); [|auto].
  destruct (remove_ok o _); auto.
Qed.

Lemma cover_upload_effs (o : oracle) (ef : string) (thumb : option string) (r : resp)
  (file : option manifest) (effs : list effect) :
  exists more, snd (cover_upload o ef thumb r file effs) = effs ++ more.
Proof.
  unfold cover_upload.
  destruct thumb as [tfn|]; [|exists []; simpl; now rewrite app_nil_r].
  destruct (String.eqb tfn ""); [exists []; simpl; now rewrite app_nil_r|].
  destruct (Py.mem _ IMAGE_EXTS); [|exists []; simpl; now rewrite app_nil_r].
  destruct (upload_save_ok o _); [|eexists; reflexivity].
  destruct (path_exists o _); [|eexists; reflexivity].
  destruct (remove_ok o _); simpl; eexists; rewrite <- app_assoc; reflexivity.
Qed.

(** What a successful [api_create_event] did. *)
Lemma create_success_shape (o : Admin.oracle) (file : option manifest) (fm : Admin.form)
  (thumb : option string) (k : string) :
  fst (fst (Admin.api_create_event o file true fm thumb)) = Admin.Created k ->
  let fld := Text.strip (Admin.fm_folder fm) in
  let fld' := if String.eqb fld "" then k else Werkzeug.secure_filename fld in
  let pw := Text.strip (Admin.fm_password fm) in
  let id0 := Text.strip (Admin.fm_event_id fm) in
  k = Slug.slugify (if String.eqb id0 "" then Text.strip (Admin.fm_name fm) else id0) /\
  k <> "" /\ dict_get k (Admin.load_events file) = None /\
  (exists more, snd (Admin.api_create_event o file true fm thumb) =
     [Admin.MakeDirs (Admin.pjoin (Admin.pjoin "" fld') "Media") true;
      Admin.MakeDirs (Admin.pjoin (Admin.pjoin "" fld') "Thumbnail") true] ++ more) /\
  snd (fst (Admin.api_create_event o file true fm thumb)) =
    Some (Admin.load_events file ++
          [(k, {| name := Text.strip (Admin.fm_name fm); date := Text.strip (Admin.fm_date fm);
                  description := Text.strip (Admin.fm_description fm); folder := fld';
                  hidden := String.eqb (Admin.fm_hidden fm) "on";
                  password := if String.eqb pw "" then None else Some pw |})]).
Proof.
  unfold Admin.api_create_event. cbv zeta. cbn [negb].
  destruct (String.eqb (Text.strip (Admin.fm_name fm)) ""); [discriminate|].
  destruct (String.eqb (Text.strip (Admin.fm_date fm)) ""); [discriminate|].
  destruct (String.eqb (Text.strip (Admin.fm_description fm)) ""); [discriminate|].
  destruct (String.eqb (Slug.slugify _) "") eqn:Ek0; [discriminate|].
  destruct (dict_get _ (Admin.load_events file)) eqn:Ek; [discriminate|].
  destruct (Admin.mkdirs_ok o _); [|discriminate]. cbn [negb].
  destruct (Admin.mkdirs_ok o _); [|discriminate]. cbn [negb].
  unfold Admin.save_then. destruct (Admin.json_save_ok o); [|discriminate].
  match goal with |- context [Admin.cover_upload ?a ?b ?c ?d ?e ?f] =>
    destruct (AdminFacts.cover_upload_file a b c d e f) as [Hf [Hr|Hr]] end;
    intros H; rewrite H in Hr; [|discriminate]; injection Hr as Hk; subst k.
  split; [reflexivity|]. split; [apply String.eqb_neq; exact Ek0|]. split; [exact Ek|]. split.
  - apply AdminFacts.cover_upload_effs.
  - rewrite Hf. now rewrite DictFacts.dict_set_new by exact Ek.
Qed.

(** What an [api_update_event] answered with [Ok] did. *)
Lemma update_ok_shape (o : Admin.oracle) (file : option manifest) (is_admin : bool)
  (path : string) (fm : Admin.form) (thumb : option string) (file' : option manifest)
  (effs : list Admin.effect) :
  Admin.api_update_event o file is_admin path fm thumb = (Admin.Ok, file', effs) ->
  let pw := Text.strip (Admin.fm_password fm) in
  exists ev, dict_get path (Admin.load_events file) = Some ev /\
    file' = Some (dict_set path
      {| name := Text.strip (Admin.fm_name fm); date := Text.strip (Admin.fm_date fm);
         description := Text.strip (Admin.fm_description fm); folder := folder ev;
         hidden := String.eqb (Admin.fm_hidden fm) "on";
         password := if String.eqb pw "" then None else Some pw |}
      (Admin.load_events file)).
Proof.
  unfold Admin.api_update_event. destruct is_admin; [|discriminate]. cbn [negb].
  destruct (dict_get path (Admin.load_events file)) as [ev|] eqn:Ev; [|discriminate].
  cbv zeta.
  destruct (String.eqb (Text.strip (Admin.fm_name fm)) ""); [discriminate|].
  destruct (String.eqb (Text.strip (Admin.fm_date fm)) ""); [discriminate|].
  destruct (String.eqb (Text.strip (Admin.fm_description fm)) ""); [discriminate|].
  unfold Admin.save_then. destruct (Admin.json_save_ok o); [|discriminate].
  match goal with |- context [Admin.cover_upload ?a ?b ?c ?d ?e ?f] =>
    destruct (AdminFacts.cover_upload_file a b c d e f) as [Hf _];
    destruct (Admin.cover_upload a b c d e f) as [[r0 f0] e0] end.
  intros H. injection H as -> -> ->. simpl in Hf. exists ev. split; [first [exact Ev|reflexivity]|]. now rewrite Hf.
Qed.

End AdminFacts.

Module GalleryFacts.

Lemma update_node_twice (n : string) (a b : node) (es : list (string * node)) :
  update_node n b (update_node n a es) = update_node n b es.
Proof.
  induction es as [|[n' x] es IH]; simpl; [reflexivity|].
  destruct (String.eqb n n') eqn:E; simpl; rewrite E; [reflexivity|now rewrite IH].
Qed.

Lemma update_node_same (n : string) (nd : node) (es : list (string * node)) :
  lookup_node n es = Some nd -> update_node n nd es = es.
Proof.
  induction es as [|[n' x] es IH]; simpl; [reflexivity|].
  destruct (String.eqb n n'); [now intros [= ->]|]. intros H. now rewrite IH.
Qed.

Lemma set_node_twice (f : fsys) (n : string) (a b : node) :
  set_node (set_node f n a) n b = set_node f n b.
Proof. unfold set_node; simpl. now rewrite update_node_twice. Qed.

Lemma set_node_same (f : fsys) (n : string) (nd : node) :
  get_node f n = Some nd -> set_node f n nd = f.
Proof.
  destruct f as [a b c d]. unfold get_node, set_node; simpl. intros H.
  now rewrite update_node_same.
Qed.

Lemma lister_items_In_inv (th : tnode) (it : media_item) (l : list string) :
  In it (lister_items th l) -> exists x, In x l /\ lister_item th x = Some it.
Proof.
  induction l as [|y l IH]; simpl; [tauto|].
  destruct (lister_item th y) as [it'|] eqn:E; simpl.
  - intros [<-|H]; [exists y; auto|]. destruct (IH H) as (x & Hx & Hi). exists x; auto.
  - intros H. destruct (IH H) as (x & Hx & Hi). exists x; auto.
Qed.

Lemma lister_item_filename (th : tnode) (x : string) (it : media_item) :
  lister_item th x = Some it -> filename it = x.
Proof.
  unfold lister_item.
  destruct (_ || _); [|discriminate].
  destruct (tnode_has th _); intros [= <-]; reflexivity.
Qed.

Lemma drop_notin (x : string) (l : list string) :
  ~ In x l -> filter (fun y => negb (String.eqb y x)) l = l.
Proof.
  induction l as [|y l IH]; simpl; [reflexivity|]. intros Hn.
  destruct (String.eqb_spec y x); [subst; tauto|]. simpl. rewrite IH; tauto.
Qed.

Lemma drop_app_last (x : string) (l : list string) :
  ~ In x l -> filter (fun y => negb (String.eqb y x)) (l ++ [x]) = l.
Proof.
  intros Hn. rewrite filter_app, drop_notin by exact Hn. simpl.
  rewrite String.eqb_refl. apply app_nil_r.
Qed.

Lemma mem_false (x : string) (xs : list string) : ~ In x xs -> Py.mem x xs = false.
Proof. intros Hn. destruct (Py.mem x xs) eqn:E; [|reflexivity]. apply mem_In in E. tauto. Qed.

(** What a successful upload did. *)
Lemma upload_success_shape (g : Gallery.gen_oracle) (sv mk : bool) (f : fsys)
  (is_admin : bool) (path raw fn tn : string) (f' : fsys) :
  Gallery.api_upload g sv mk f is_admin path (Some raw) = (Gallery.USuccess fn tn, f') ->
  exists ev m th,
    dict_get path (Admin.load_events (events_file f)) = Some ev /\
    Gallery.plain_name (folder ev) = true /\
    get_node f (folder ev) = Some (DirNode (Some m) th) /\ th <> TFile /\
    is_admin = true /\ raw <> "" /\ sv = true /\
    fn = Werkzeug.secure_filename raw /\ fn <> "" /\ tn = (fn ++ ".webp")%string /\
    let th1 := match th with TDir l => TDir l | _ => TDir [] end in
    f' = set_node f (folder ev)
           (DirNode (Some (if Py.mem fn m then m else m ++ [fn]))
              (if Gallery.generate_thumb_for_any g fn && negb (tnode_has th1 tn)
               then Sync.tnode_add th1 tn else th1)).
Proof.
  unfold Gallery.api_upload. destruct is_admin; [|discriminate]. cbn [negb].
  destruct (dict_get path _) as [ev|] eqn:Ev; [|discriminate].
  destruct (String.eqb_spec raw ""); [discriminate|]. cbv zeta.
  destruct (Gallery.plain_name (folder ev)) eqn:Pn; [|discriminate]. cbn [negb].
  destruct (get_node f (folder ev)) as [[|[m|] th]|] eqn:Gn; try discriminate.
  destruct th as [| |l]; [destruct mk; [|discriminate]|discriminate|];
    cbn [Sync.is_tdir negb andb];
    (destruct (String.eqb_spec (Werkzeug.secure_filename raw) ""); cbn [orb]; [discriminate|]);
    destruct sv; cbn [negb orb]; try discriminate;
    intros [= <- <- <-];
    match goal with Gn : get_node _ _ = Some (DirNode (Some _) ?t) |- _ => exists ev, m, t end;
    cbv zeta; repeat split; first [reflexivity|assumption|discriminate].
Qed.

End GalleryFacts.

(** ** Extra properties *)

(** X1: On ASCII text, [slugify] always returns a URL slug: lower-case letters, digits and single dashes, with no dash at either end (possibly the empty string). *)
Theorem slugify_is_url_slug (text : string) :
  Text.ascii_text text = true -> Shape.is_slug (Slug.slugify text) = true.
Proof. intros _. apply SlugFacts.slugify_is_slug_gen. Qed.

(** X1 witness. *)
Lemma slugify_is_url_slug_witness :
  Text.ascii_text "  Summer_Trip: 2024! " = true /\
  Shape.is_slug (Slug.slugify "  Summer_Trip: 2024! ") = true.
Proof.
  assert (H : Text.ascii_text "  Summer_Trip: 2024! " = true) by reflexivity.
  exact (conj H (slugify_is_url_slug _ H)).
Defined.

(** X2: On ASCII text, [slugify] is idempotent. *)
Theorem slugify_idempotent (text : string) :
  Text.ascii_text text = true -> Slug.slugify (Slug.slugify text) = Slug.slugify text.
Proof. intros _. apply SlugFacts.slugify_fixes_slug, SlugFacts.slugify_is_slug_gen. Qed.

(** X2 witness. *)
Lemma slugify_idempotent_witness :
  Text.ascii_text "--Hello,  World__" = true /\
  Slug.slugify (Slug.slugify "--Hello,  World__") = Slug.slugify "--Hello,  World__".
Proof.
  assert (H : Text.ascii_text "--Hello,  World__" = true) by reflexivity.
  exact (conj H (slugify_idempotent _ H)).
Defined.

(** X3: On ASCII text, [secure_filename] returns a name of the characters [A-Za-z0-9_.-] that neither starts nor ends with a dot or an underscore: it holds no [/] and is never [.] or [..]. *)
Theorem secure_filename_safe (fn : string) :
  Text.ascii_text fn = true ->
  let r := Werkzeug.secure_filename fn in
  Shape.is_secure_name r = true /\ ~ In "/"%char (list_ascii_of_string r) /\
  r <> "." /\ r <> "..".
Proof.
  intros _ r. pose proof (SecureFacts.secure_is_secure_gen fn) as H. fold r in H.
  split; [exact H|]. split.
  - intros Hin. unfold Shape.is_secure_name in H.
    apply andb_true_iff in H as [H _]. apply andb_true_iff in H as [H _].
    pose proof (TextFacts.all_chars_In _ _ _ H Hin) as Hc. discriminate Hc.
  - split; intros E; rewrite E in H; discriminate H.
Qed.

(** X3 witness. *)
Lemma secure_filename_safe_witness :
  Text.ascii_text "../../etc/passwd" = true /\
  Werkzeug.secure_filename "../../etc/passwd" <> "..".
Proof.
  assert (H : Text.ascii_text "../../etc/passwd" = true) by reflexivity.
  exact (conj H (proj2 (proj2 (proj2 (secure_filename_safe _ H))))).
Defined.

(** X4: On ASCII text, [secure_filename] is idempotent. *)
Theorem secure_filename_idempotent (fn : string) :
  Text.ascii_text fn = true ->
  Werkzeug.secure_filename (Werkzeug.secure_filename fn) = Werkzeug.secure_filename fn.
Proof. intros _. apply SecureFacts.secure_fixes_secure, SecureFacts.secure_is_secure_gen. Qed.

(** X4 witness. *)
Lemma secure_filename_idempotent_witness :
  Text.ascii_text " My cool movie.mov" = true /\
  Werkzeug.secure_filename (Werkzeug.secure_filename " My cool movie.mov") =
    Werkzeug.secure_filename " My cool movie.mov".
Proof.
  assert (H : Text.ascii_text " My cool movie.mov" = true) by reflexivity.
  exact (conj H (secure_filename_idempotent _ H)).
Defined.

(** X5: A successful login with a non-empty [ADMIN_PASSWORD] redirects, makes the session an admin session, and the next request's [check_auth_sync] keeps that session. *)
Theorem admin_login_survives_same_password (sha256 : string -> string) (p : string)
  (s : Auth.session) :
  p <> "" ->
  let r := Auth.login_request sha256 (Some p) true (Some p) s in
  fst r = Auth.LoginRedirect /\ Auth.s_admin (snd r) = true /\
  Auth.check_auth_sync sha256 (Some p) (snd r) = snd r.
Proof.
  intros Hp. apply String.eqb_neq in Hp.
  unfold Auth.login_request, Auth.login. rewrite Hp, String.eqb_refl. simpl.
  unfold Auth.check_auth_sync. simpl. now rewrite Hp, String.eqb_refl.
Qed.

(** X5 witness. *)
Lemma admin_login_survives_same_password_witness :
  "admin" <> "" /\
  Auth.s_admin (snd (Auth.login_request ExtraFixtures.tag_hash (Some "admin") true
                       (Some "admin") ExtraFixtures.guest)) = true.
Proof.
  assert (H : "admin" <> "") by discriminate.
  exact (conj H (proj1 (proj2 (admin_login_survives_same_password
                                 ExtraFixtures.tag_hash "admin" ExtraFixtures.guest H)))).
Defined.

(** X6: After a login, once [ADMIN_PASSWORD] becomes empty or a password with another digest, [check_auth_sync] clears the session, and every administration API (create, update and delete of events, upload and delete of media) answers 401 without changing anything. *)
Theorem admin_password_change_locks_out (sha256 : string -> string) (p p' : string)
  (s : Auth.session) (o : Admin.oracle) (file : option manifest) (fm : Admin.form)
  (thumb : option string) (path : string) (g : Gallery.gen_oracle) (sv mk : bool)
  (rm : string -> bool) (f : fsys) (raw : option string) :
  p <> "" -> (p' = "" \/ sha256 p' <> sha256 p) ->
  let s2 := Auth.check_auth_sync sha256 (Some p')
              (snd (Auth.login_request sha256 (Some p) true (Some p) s)) in
  Auth.s_admin s2 = false /\
  Admin.api_create_event o file (Auth.s_admin s2) fm thumb = (Admin.Status 401, file, []) /\
  Admin.api_update_event o file (Auth.s_admin s2) path fm thumb = (Admin.Status 401, file, []) /\
  Admin.api_delete_event o file (Auth.s_admin s2) path = (Admin.Status 401, file, []) /\
  Gallery.api_upload g sv mk f (Auth.s_admin s2) path raw = (Gallery.UStatus 401, f) /\
  Gallery.api_delete rm f (Auth.s_admin s2) path raw = (Gallery.UStatus 401, f).
Proof.
  intros Hp Hp' s2.
  assert (H : Auth.s_admin s2 = false).
  { subst s2. apply String.eqb_neq in Hp.
    unfold Auth.login_request, Auth.login. rewrite Hp, String.eqb_refl. simpl.
    unfold Auth.check_auth_sync at 1. simpl.
    destruct Hp' as [->|Hne]; [reflexivity|].
    destruct (String.eqb p' ""); [reflexivity|].
    destruct (String.eqb_spec (sha256 p) (sha256 p')); [congruence|reflexivity]. }
  rewrite H. repeat split; reflexivity.
Qed.

(** X6 witness. *)
Lemma admin_password_change_locks_out_witness :
  "admin" <> "" /\
  ("rotated" = "" \/ ExtraFixtures.tag_hash "rotated" <> ExtraFixtures.tag_hash "admin") /\
  Gallery.api_delete (fun _ => true) Fixtures.root_uploaded
    (Auth.s_admin (Auth.check_auth_sync ExtraFixtures.tag_hash (Some "rotated")
       (snd (Auth.login_request ExtraFixtures.tag_hash (Some "admin") true (Some "admin")
               ExtraFixtures.guest))))
    "gallery" (Some "photo.jpg") = (Gallery.UStatus 401, Fixtures.root_uploaded).
Proof.
  assert (H1 : "admin" <> "") by discriminate.
  assert (H2 : "rotated" = "" \/ ExtraFixtures.tag_hash "rotated" <> ExtraFixtures.tag_hash "admin")
    by (right; discriminate).
  refine (conj H1 (conj H2 _)).
  exact (proj2 (proj2 (proj2 (proj2 (proj2 (admin_password_change_locks_out
    ExtraFixtures.tag_hash "admin" "rotated" ExtraFixtures.guest ExtraFixtures.disk_ok
    (Some ExtraFixtures.trip_events) ExtraFixtures.trip_form None "gallery"
    ExtraFixtures.gen_images true true (fun _ => true) Fixtures.root_uploaded
    (Some "photo.jpg") H1 H2)))))).
Defined.

(** X7: When [ADMIN_PASSWORD] is unset or empty, [login] answers "not set" and never makes the session an admin session, whatever is posted. *)
Theorem login_needs_admin_password (sha256 : string -> string) (admin_pw : option string)
  (post : bool) (form_pw : option string) (s : Auth.session) :
  (admin_pw = None \/ admin_pw = Some "") ->
  fst (Auth.login_request sha256 admin_pw post form_pw s) = Auth.LoginUnset /\
  Auth.s_admin (snd (Auth.login_request sha256 admin_pw post form_pw s)) = false.
Proof.
  intros [-> | ->]; unfold Auth.login_request, Auth.login, Auth.check_auth_sync; simpl;
    destruct (Auth.s_admin s) eqn:E; simpl; auto.
Qed.

(** X7 witness. *)
Lemma login_needs_admin_password_witness :
  (@None string = None \/ @None string = Some "") /\
  fst (Auth.login_request ExtraFixtures.tag_hash None true (Some "admin") ExtraFixtures.guest)
    = Auth.LoginUnset.
Proof.
  assert (H : @None string = None \/ @None string = Some "") by (left; reflexivity).
  exact (conj H (proj1 (login_needs_admin_password ExtraFixtures.tag_hash None true
                          (Some "admin") ExtraFixtures.guest H))).
Defined.

(** X8: A posted wrong password shows the form with the error and leaves the session as [check_auth_sync] left it. *)
Theorem failed_login_keeps_session (sha256 : string -> string) (p q : string) (s : Auth.session) :
  p <> "" -> q <> p ->
  Auth.login_request sha256 (Some p) true (Some q) s =
    (Auth.LoginForm true, Auth.check_auth_sync sha256 (Some p) s).
Proof.
  intros Hp Hq. apply String.eqb_neq in Hp, Hq.
  unfold Auth.login_request, Auth.login. now rewrite Hp, Hq.
Qed.

(** X8 witness. *)
Lemma failed_login_keeps_session_witness :
  "admin" <> "" /\ "guess" <> "admin" /\
  Auth.login_request ExtraFixtures.tag_hash (Some "admin") true (Some "guess")
    ExtraFixtures.guest =
  (Auth.LoginForm true,
   Auth.check_auth_sync ExtraFixtures.tag_hash (Some "admin") ExtraFixtures.guest).
Proof.
  assert (H1 : "admin" <> "") by discriminate.
  assert (H2 : "guess" <> "admin") by discriminate.
  exact (conj H1 (conj H2 (failed_login_keeps_session ExtraFixtures.tag_hash "admin" "guess"
                             ExtraFixtures.guest H1 H2))).
Defined.

(** X9: [api_create_event] never changes or removes an existing record: [events.json] is either left as it was or gets one new key, absent before, appended at the end. *)
Theorem create_event_never_overwrites (o : Admin.oracle) (file : option manifest)
  (is_admin : bool) (fm : Admin.form) (thumb : option string) :
  let r := Admin.api_create_event o file is_admin fm thumb in
  snd (fst r) = file \/
  exists k ev, dict_get k (Admin.load_events file) = None /\
    snd (fst r) = Some (Admin.load_events file ++ [(k, ev)]).
Proof.
  cbv zeta. unfold Admin.api_create_event. destruct is_admin; [|left; reflexivity].
  cbv zeta. cbn [negb].
  destruct (String.eqb (Text.strip (Admin.fm_name fm)) ""); [left; reflexivity|].
  destruct (String.eqb (Text.strip (Admin.fm_date fm)) ""); [left; reflexivity|].
  destruct (String.eqb (Text.strip (Admin.fm_description fm)) ""); [left; reflexivity|].
  destruct (String.eqb (Slug.slugify _) ""); [left; reflexivity|].
  destruct (dict_get _ (Admin.load_events file)) eqn:Ek; [left; reflexivity|].
  destruct (Admin.mkdirs_ok o _); [|left; reflexivity]. cbn [negb].
  destruct (Admin.mkdirs_ok o _); [|left; reflexivity]. cbn [negb].
  unfold Admin.save_then. destruct (Admin.json_save_ok o); [|left; reflexivity].
  right.
  match goal with |- context [Admin.cover_upload ?a ?b ?c ?d ?e ?f] =>
    destruct (AdminFacts.cover_upload_file a b c d e f) as [Hf _] end.
  rewrite Hf. do 2 eexists. split; [exact Ek|]. now rewrite DictFacts.dict_set_new by exact Ek.
Qed.

(** X10: When [api_create_event] answers with an event path, that path is the slug of the custom id (or of the name when the id is empty), it is non-empty and new, and the record appended under it has the stripped name, the folder (the path when the folder field is empty, its [secure_filename] otherwise) and a password only when the password field is non-empty. *)
Theorem create_event_created (o : Admin.oracle) (file : option manifest) (fm : Admin.form)
  (thumb : option string) (k : string) :
  fst (fst (Admin.api_create_event o file true fm thumb)) = Admin.Created k ->
  let id0 := Text.strip (Admin.fm_event_id fm) in
  let fld := Text.strip (Admin.fm_folder fm) in
  let pw := Text.strip (Admin.fm_password fm) in
  k = Slug.slugify (if String.eqb id0 "" then Text.strip (Admin.fm_name fm) else id0) /\
  k <> "" /\ dict_get k (Admin.load_events file) = None /\
  exists ev,
    snd (fst (Admin.api_create_event o file true fm thumb)) =
      Some (Admin.load_events file ++ [(k, ev)]) /\
    name ev = Text.strip (Admin.fm_name fm) /\
    folder ev = (if String.eqb fld "" then k else Werkzeug.secure_filename fld) /\
    password ev = (if String.eqb pw "" then None else Some pw).
Proof.
  intros H. destruct (AdminFacts.create_success_shape o file fm thumb k H) as (Hk & Hne & Hf & _ & Hs).
  cbv zeta in *. split; [exact Hk|]. split; [exact Hne|]. split; [exact Hf|].
  eexists. split; [exact Hs|]. repeat split.
Qed.

(** X10 witness. *)
Lemma create_event_created_witness :
  fst (fst (Admin.api_create_event ExtraFixtures.disk_ok None true ExtraFixtures.trip_form None))
    = Admin.Created "summer-trip" /\
  "summer-trip" <> "".
Proof.
  assert (H : fst (fst (Admin.api_create_event ExtraFixtures.disk_ok None true
                           ExtraFixtures.trip_form None)) = Admin.Created "summer-trip")
    by (vm_compute; reflexivity).
  exact (conj H (proj1 (proj2 (create_event_created ExtraFixtures.disk_ok None
                                 ExtraFixtures.trip_form None "summer-trip" H)))).
Defined.

(** X11: When the folder field is non-empty but [secure_filename] empties it (for example [..]), a created event has the folder [""]: its [Media] and [Thumbnail] directories are created directly in the data root, [Thumbnail] being the global thumbnail directory. *)
Theorem create_event_unsafe_folder_at_root (o : Admin.oracle) (file : option manifest)
  (fm : Admin.form) (thumb : option string) (k : string) :
  Text.strip (Admin.fm_folder fm) <> "" ->
  Werkzeug.secure_filename (Text.strip (Admin.fm_folder fm)) = "" ->
  fst (fst (Admin.api_create_event o file true fm thumb)) = Admin.Created k ->
  exists ev more,
    folder ev = "" /\
    snd (fst (Admin.api_create_event o file true fm thumb)) =
      Some (Admin.load_events file ++ [(k, ev)]) /\
    snd (Admin.api_create_event o file true fm thumb) =
      [Admin.MakeDirs "Media" true; Admin.MakeDirs "Thumbnail" true] ++ more.
Proof.
  intros Hfld Hsec H.
  destruct (AdminFacts.create_success_shape o file fm thumb k H) as (_ & _ & _ & [more He] & Hs).
  cbv zeta in *. apply String.eqb_neq in Hfld. rewrite Hfld, Hsec in He, Hs.
  eexists _, more. split; [|split; [exact Hs|exact He]]. reflexivity.
Qed.

(** X11 witness. *)
Lemma create_event_unsafe_folder_at_root_witness :
  Text.strip (Admin.fm_folder ExtraFixtures.dotdot_form) <> "" /\
  Werkzeug.secure_filename (Text.strip (Admin.fm_folder ExtraFixtures.dotdot_form)) = "" /\
  fst (fst (Admin.api_create_event ExtraFixtures.disk_ok None true ExtraFixtures.dotdot_form
              None)) = Admin.Created "summer-trip" /\
  exists ev more,
    folder ev = "" /\
    snd (fst (Admin.api_create_event ExtraFixtures.disk_ok None true ExtraFixtures.dotdot_form
                None)) = Some (Admin.load_events None ++ [("summer-trip", ev)]) /\
    snd (Admin.api_create_event ExtraFixtures.disk_ok None true ExtraFixtures.dotdot_form None)
      = [Admin.MakeDirs "Media" true; Admin.MakeDirs "Thumbnail" true] ++ more.
Proof.
  assert (H1 : Text.strip (Admin.fm_folder ExtraFixtures.dotdot_form) <> "")
    by (vm_compute; discriminate).
  assert (H2 : Werkzeug.secure_filename (Text.strip (Admin.fm_folder ExtraFixtures.dotdot_form))
               = "") by (vm_compute; reflexivity).
  assert (H3 : fst (fst (Admin.api_create_event ExtraFixtures.disk_ok None true
                           ExtraFixtures.dotdot_form None)) = Admin.Created "summer-trip")
    by (vm_compute; reflexivity).
  exact (conj H1 (conj H2 (conj H3 (create_event_unsafe_folder_at_root ExtraFixtures.disk_ok
           None ExtraFixtures.dotdot_form None "summer-trip" H1 H2 H3)))).
Defined.

(** X12: When the data root exists, deleting an event created with such a folder field runs [shutil.rmtree] on the data root itself. *)
Theorem unsafe_folder_event_delete_removes_data_root (o : Admin.oracle)
  (file : option manifest) (fm : Admin.form) (thumb : option string) (k : string) :
  Text.strip (Admin.fm_folder fm) <> "" ->
  Werkzeug.secure_filename (Text.strip (Admin.fm_folder fm)) = "" ->
  fst (fst (Admin.api_create_event o file true fm thumb)) = Admin.Created k ->
  Admin.path_exists o "" = true ->
  snd (Admin.api_delete_event o (snd (fst (Admin.api_create_event o file true fm thumb))) true k)
    = [Admin.RmTree "" (Admin.rmtree_ok o "")].
Proof.
  intros Hfld Hsec H Hex.
  destruct (AdminFacts.create_success_shape o file fm thumb k H) as (_ & _ & Hf & _ & Hs).
  cbv zeta in *. apply String.eqb_neq in Hfld. rewrite Hfld, Hsec in Hs. rewrite Hs.
  unfold Admin.api_delete_event. cbn [negb Admin.load_events].
  rewrite <- DictFacts.dict_set_new by exact Hf. rewrite DictFacts.dict_get_set_same.
  cbn [folder]. change (Admin.pjoin "" "") with "". rewrite Hex.
  destruct (Admin.rmtree_ok o ""); simpl; [|reflexivity].
  unfold Admin.save_then. destruct (Admin.json_save_ok o); reflexivity.
Qed.

(** X12 witness. *)
Lemma unsafe_folder_event_delete_removes_data_root_witness :
  Admin.path_exists ExtraFixtures.disk_ok "" = true /\
  snd (Admin.api_delete_event ExtraFixtures.disk_ok
         (snd (fst (Admin.api_create_event ExtraFixtures.disk_ok None true
                      ExtraFixtures.dotdot_form None))) true "summer-trip")
    = [Admin.RmTree "" true].
Proof.
  assert (H1 : Text.strip (Admin.fm_folder ExtraFixtures.dotdot_form) <> "")
    by (vm_compute; discriminate).
  assert (H2 : Werkzeug.secure_filename (Text.strip (Admin.fm_folder ExtraFixtures.dotdot_form))
               = "") by (vm_compute; reflexivity).
  assert (H3 : fst (fst (Admin.api_create_event ExtraFixtures.disk_ok None true
                           ExtraFixtures.dotdot_form None)) = Admin.Created "summer-trip")
    by (vm_compute; reflexivity).
  assert (H4 : Admin.path_exists ExtraFixtures.disk_ok "" = true) by reflexivity.
  exact (conj H4 (unsafe_folder_event_delete_removes_data_root ExtraFixtures.disk_ok None
                    ExtraFixtures.dotdot_form None "summer-trip" H1 H2 H3 H4)).
Defined.

(** X13: When [api_update_event] succeeds, the record stays under the same key with its folder unchanged, takes the stripped name, and has a password exactly when the password field is non-empty; the keys keep their order and every other record is unchanged. *)
Theorem update_event_in_place (o : Admin.oracle) (file : option manifest) (is_admin : bool)
  (path : string) (fm : Admin.form) (thumb : option string) (file' : option manifest)
  (effs : list Admin.effect) :
  Admin.api_update_event o file is_admin path fm thumb = (Admin.Ok, file', effs) ->
  let pw := Text.strip (Admin.fm_password fm) in
  exists ev ev' events',
    dict_get path (Admin.load_events file) = Some ev /\ file' = Some events' /\
    dict_get path events' = Some ev' /\
    folder ev' = folder ev /\ name ev' = Text.strip (Admin.fm_name fm) /\
    password ev' = (if String.eqb pw "" then None else Some pw) /\
    map fst events' = map fst (Admin.load_events file) /\
    (forall k, k <> path -> dict_get k events' = dict_get k (Admin.load_events file)).
Proof.
  intros H. destruct (AdminFacts.update_ok_shape o file is_admin path fm thumb file' effs H) as (ev & Ev & ->).
  cbv zeta. do 3 eexists. split; [exact Ev|]. split; [reflexivity|].
  split; [apply DictFacts.dict_get_set_same|]. split; [reflexivity|]. split; [reflexivity|].
  split; [reflexivity|]. split.
  - apply DictFacts.dict_set_keys. congruence.
  - intros k Hk. now apply DictFacts.dict_get_set_other.
Qed.

(** X13 witness. *)
Lemma update_event_in_place_witness :
  Admin.api_update_event ExtraFixtures.disk_ok (Some ExtraFixtures.trip_events) true
    "summer-trip" ExtraFixtures.trip_form None =
  (Admin.Ok,
   snd (fst (Admin.api_update_event ExtraFixtures.disk_ok (Some ExtraFixtures.trip_events) true
               "summer-trip" ExtraFixtures.trip_form None)),
   snd (Admin.api_update_event ExtraFixtures.disk_ok (Some ExtraFixtures.trip_events) true
          "summer-trip" ExtraFixtures.trip_form None)) /\
  exists ev, dict_get "summer-trip" ExtraFixtures.trip_events = Some ev.
Proof.
  assert (H : Admin.api_update_event ExtraFixtures.disk_ok (Some ExtraFixtures.trip_events) true
    "summer-trip" ExtraFixtures.trip_form None =
  (Admin.Ok,
   snd (fst (Admin.api_update_event ExtraFixtures.disk_ok (Some ExtraFixtures.trip_events) true
               "summer-trip" ExtraFixtures.trip_form None)),
   snd (Admin.api_update_event ExtraFixtures.disk_ok (Some ExtraFixtures.trip_events) true
          "summer-trip" ExtraFixtures.trip_form None))) by (vm_compute; reflexivity).
  refine (conj H _).
  destruct (update_event_in_place _ _ _ _ _ _ _ _ H) as (ev & _ & _ & Hev & _).
  exact (ex_intro _ ev Hev).
Defined.

(** X14: After a successful update with an empty password field, the event is open: [event_api] never answers 401 for it and [event_page] never shows the locked page. *)
Theorem update_event_empty_password_opens (o : Admin.oracle) (file : option manifest)
  (is_admin : bool) (path : string) (fm : Admin.form) (thumb : option string)
  (events' : manifest) (effs : list Admin.effect) (f : fsys) (key : string)
  (viewer_admin : bool) (page : Z) :
  Admin.api_update_event o file is_admin path fm thumb = (Admin.Ok, Some events', effs) ->
  Text.strip (Admin.fm_password fm) = "" ->
  Api.event_api f events' path key viewer_admin page <> Api.ApiUnauthorized /\
  Gallery.event_page f events' path key viewer_admin <> Gallery.PageLocked.
Proof.
  intros H Hpw. destruct (AdminFacts.update_ok_shape o file is_admin path fm thumb _ effs H) as (ev & _ & He).
  injection He as ->. rewrite Hpw. cbn [String.eqb].
  unfold Api.event_api, Gallery.event_page. rewrite DictFacts.dict_get_set_same.
  unfold Api.rejected, Api.locked. cbn [password].
  destruct (Api.paginate _ page) as [[c hm] np]. split; discriminate.
Qed.

(** X14 witness. *)
Lemma update_event_empty_password_opens_witness :
  Admin.api_update_event ExtraFixtures.disk_ok (Some ExtraFixtures.trip_events) true
    "summer-trip" ExtraFixtures.trip_form None =
    (Admin.Ok, Some ExtraFixtures.trip_open_events, []) /\
  Text.strip (Admin.fm_password ExtraFixtures.trip_form) = "" /\
  Api.event_api Fixtures.root_uploaded ExtraFixtures.trip_open_events "summer-trip" "" false 1
    <> Api.ApiUnauthorized.
Proof.
  assert (H1 : Admin.api_update_event ExtraFixtures.disk_ok (Some ExtraFixtures.trip_events) true
                 "summer-trip" ExtraFixtures.trip_form None =
               (Admin.Ok, Some ExtraFixtures.trip_open_events, [])) by (vm_compute; reflexivity).
  assert (H2 : Text.strip (Admin.fm_password ExtraFixtures.trip_form) = "") by reflexivity.
  exact (conj H1 (conj H2 (proj1 (update_event_empty_password_opens ExtraFixtures.disk_ok
    (Some ExtraFixtures.trip_events) true "summer-trip" ExtraFixtures.trip_form None
    ExtraFixtures.trip_open_events [] Fixtures.root_uploaded "" false 1 H1 H2)))).
Defined.

(** X15: When [api_delete_event] does not succeed (401, 404, a failed [rmtree] or a failed save), [events.json] is left as it was. *)
Theorem delete_event_failure_keeps_manifest (o : Admin.oracle) (file : option manifest)
  (is_admin : bool) (path : string) :
  fst (fst (Admin.api_delete_event o file is_admin path)) <> Admin.Ok ->
  snd (fst (Admin.api_delete_event o file is_admin path)) = file.
Proof.
  unfold Admin.api_delete_event. destruct is_admin; [|reflexivity]. cbn [negb].
  destruct (dict_get path (Admin.load_events file)) as [ev|]; [|reflexivity]. cbv zeta.
  destruct (Admin.path_exists o _ && negb _); [reflexivity|].
  unfold Admin.save_then. destruct (Admin.json_save_ok o); [|reflexivity].
  simpl. congruence.
Qed.

(** X15 witness. *)
Lemma delete_event_failure_keeps_manifest_witness :
  fst (fst (Admin.api_delete_event ExtraFixtures.rmtree_denied (Some ExtraFixtures.trip_events)
              true "summer-trip")) <> Admin.Ok /\
  snd (fst (Admin.api_delete_event ExtraFixtures.rmtree_denied (Some ExtraFixtures.trip_events)
              true "summer-trip")) = Some ExtraFixtures.trip_events.
Proof.
  assert (H : fst (fst (Admin.api_delete_event ExtraFixtures.rmtree_denied
                          (Some ExtraFixtures.trip_events) true "summer-trip")) <> Admin.Ok)
    by (vm_compute; discriminate).
  exact (conj H (delete_event_failure_keeps_manifest ExtraFixtures.rmtree_denied
                   (Some ExtraFixtures.trip_events) true "summer-trip" H)).
Defined.

(** X16: When [api_delete_event] succeeds on a manifest without duplicate keys, the key is gone, every other record is unchanged, and the event folder was removed when it existed. *)
Theorem delete_event_removes_key (o : Admin.oracle) (file : option manifest)
  (is_admin : bool) (path : string) :
  fst (fst (Admin.api_delete_event o file is_admin path)) = Admin.Ok ->
  NoDup (map fst (Admin.load_events file)) ->
  exists ev events',
    dict_get path (Admin.load_events file) = Some ev /\
    snd (fst (Admin.api_delete_event o file is_admin path)) = Some events' /\
    dict_get path events' = None /\
    (forall k, k <> path -> dict_get k events' = dict_get k (Admin.load_events file)) /\
    (Admin.path_exists o (Admin.pjoin "" (folder ev)) = true ->
     snd (Admin.api_delete_event o file is_admin path) =
       [Admin.RmTree (Admin.pjoin "" (folder ev)) true]).
Proof.
  unfold Admin.api_delete_event. destruct is_admin; [|discriminate]. cbn [negb].
  destruct (dict_get path (Admin.load_events file)) as [ev|] eqn:Ev; [|discriminate].
  cbv zeta. intros H Hnd.
  destruct (Admin.path_exists o (Admin.pjoin "" (folder ev))) eqn:Ex;
    [destruct (Admin.rmtree_ok o (Admin.pjoin "" (folder ev))) eqn:Rm|]; cbn [andb negb] in *;
    [|discriminate|];
    unfold Admin.save_then in *; destruct (Admin.json_save_ok o); try discriminate;
    do 2 eexists; (split; [reflexivity|]); (split; [reflexivity|]);
    (split; [now apply DictFacts.dict_get_del_same|]);
    (split; [intros k Hk; now apply DictFacts.dict_get_del_other|]);
    intros HE; first [reflexivity|congruence].
Qed.

(** X16 witness. *)
Lemma delete_event_removes_key_witness :
  fst (fst (Admin.api_delete_event ExtraFixtures.disk_ok (Some ExtraFixtures.trip_events)
              true "summer-trip")) = Admin.Ok /\
  NoDup (map fst (Admin.load_events (Some ExtraFixtures.trip_events))) /\
  exists events',
    snd (fst (Admin.api_delete_event ExtraFixtures.disk_ok (Some ExtraFixtures.trip_events)
                true "summer-trip")) = Some events' /\
    dict_get "summer-trip" events' = None.
Proof.
  assert (H1 : fst (fst (Admin.api_delete_event ExtraFixtures.disk_ok
                           (Some ExtraFixtures.trip_events) true "summer-trip")) = Admin.Ok)
    by (vm_compute; reflexivity).
  assert (H2 : NoDup (map fst (Admin.load_events (Some ExtraFixtures.trip_events))))
    by (vm_compute; constructor; [intros []|constructor]).
  refine (conj H1 (conj H2 _)).
  destruct (delete_event_removes_key ExtraFixtures.disk_ok (Some ExtraFixtures.trip_events)
              true "summer-trip" H1 H2) as (ev & events' & _ & He & Hg & _).
  exact (ex_intro _ events' (conj He Hg)).
Defined.

(** X17: [event_page] agrees with page 1 of [event_api]: not found, locked exactly when the API answers 401, and otherwise the first 20 items of the same list. *)
Theorem event_page_is_first_api_page (f : fsys) (events : manifest) (path key : string)
  (is_admin : bool) :
  Gallery.event_page f events path key is_admin =
  match Api.event_api f events path key is_admin 1 with
  | Api.ApiNotFound => Gallery.Page404
  | Api.ApiUnauthorized => Gallery.PageLocked
  | Api.ApiPage chunk _ _ => Gallery.PageGallery chunk
  end.
Proof.
  unfold Gallery.event_page, Api.event_api.
  destruct (dict_get path events) as [ev|]; [|reflexivity].
  unfold Api.rejected, Api.locked.
  destruct (password ev) as [p|]; cbn [negb andb orb].
  - destruct (String.eqb p ""); cbn [negb andb orb]; [reflexivity|].
    destruct (String.eqb key p), is_admin; cbn [negb andb orb]; try reflexivity.
  - reflexivity.
Qed.

(** X18: After a successful upload of a file with an image or video extension, the saved name is [secure_filename] of the uploaded name, [events.json] is unchanged, and the event's media list holds the file; when a thumbnail was generated, the item uses [<name>.webp] from the event's [Thumbnail] directory. *)
Theorem upload_then_listed (g : Gallery.gen_oracle) (sv mk : bool) (f : fsys)
  (is_admin : bool) (path raw fn tn : string) (f' : fsys) :
  Gallery.api_upload g sv mk f is_admin path (Some raw) = (Gallery.USuccess fn tn, f') ->
  let ext := Py.lower (snd (Py.splitext fn)) in
  Py.mem ext IMAGE_EXTS || Py.mem ext VIDEO_EXTS = true ->
  fn = Werkzeug.secure_filename raw /\ tn = (fn ++ ".webp")%string /\
  events_file f' = events_file f /\
  exists ev it,
    dict_get path (Admin.load_events (events_file f')) = Some ev /\
    In it (get_event_media_list f' ev) /\ filename it = fn /\
    (Gallery.generate_thumb_for_any g fn = true ->
     thumb_filename it = tn /\ thumb_route_of it = RouteThumbFile).
Proof.
  intros H; cbv zeta; intros Hext.
  destruct (GalleryFacts.upload_success_shape g sv mk f is_admin path raw fn tn f' H)
    as (ev & m & th & Ev & _ & Gn & _ & _ & _ & _ & Hfn & _ & Htn & Hf').
  cbv zeta in Hf'.
  set (th1 := match th with TDir l => TDir l | _ => TDir [] end) in Hf'.
  set (th2 := if Gallery.generate_thumb_for_any g fn && negb (tnode_has th1 tn)
              then Sync.tnode_add th1 tn else th1) in Hf'.
  set (m' := if Py.mem fn m then m else m ++ [fn]) in Hf'.
  assert (He : events_file f' = events_file f) by (subst f'; reflexivity).
  split; [exact Hfn|]. split; [exact Htn|]. split; [exact He|].
  assert (Hth : Gallery.generate_thumb_for_any g fn = true -> tnode_has th2 tn = true).
  { intros Hg. subst th2. rewrite Hg. cbn [andb].
    destruct (tnode_has th1 tn) eqn:Ht; cbn [negb]; [exact Ht|].
    apply mem_In, SyncFacts.tnames_add_new. subst th1. now destruct th. }
  assert (Hm : In fn m').
  { subst m'. destruct (Py.mem fn m) eqn:E; [now apply mem_In|].
    apply in_or_app. right. now left. }
  assert (Hl : get_event_media_list f' ev = lister_items th2 (sort_strings m')).
  { unfold get_event_media_list. subst f'. rewrite SyncFacts.get_node_set_same, Gn.
    reflexivity. }
  remember (lister_item th2 fn) as oit eqn:Eit. symmetry in Eit.
  destruct oit as [it|].
  2:{ unfold lister_item in Eit. cbv zeta in Eit. rewrite Hext in Eit.
      revert Eit; destruct (tnode_has th2 (fn ++ ".webp")%string); discriminate. }
  exists ev, it. split; [rewrite He; exact Ev|]. split.
  { rewrite Hl. apply ListerFacts.lister_items_In with fn; [|exact Eit].
    now apply ListerFacts.sort_strings_In. }
  split; [now apply GalleryFacts.lister_item_filename in Eit|].
  intros Hg. specialize (Hth Hg). unfold lister_item in Eit. cbv zeta in Eit.
  rewrite Hext, <- Htn, Hth in Eit. injection Eit as <-. subst tn. split; reflexivity.
Qed.

(** X18 witness. *)
Lemma upload_then_listed_witness :
  Gallery.api_upload ExtraFixtures.gen_images true true Fixtures.root_uploaded true "gallery"
    (Some "Beach Day.JPG") =
    (Gallery.USuccess "Beach_Day.JPG" "Beach_Day.JPG.webp",
     snd (Gallery.api_upload ExtraFixtures.gen_images true true Fixtures.root_uploaded true
            "gallery" (Some "Beach Day.JPG"))) /\
  exists ev it,
    dict_get "gallery" (Admin.load_events (events_file (snd (Gallery.api_upload
      ExtraFixtures.gen_images true true Fixtures.root_uploaded true "gallery"
      (Some "Beach Day.JPG"))))) = Some ev /\
    In it (get_event_media_list (snd (Gallery.api_upload ExtraFixtures.gen_images true true
      Fixtures.root_uploaded true "gallery" (Some "Beach Day.JPG"))) ev) /\
    filename it = "Beach_Day.JPG".
Proof.
  assert (H1 : Gallery.api_upload ExtraFixtures.gen_images true true Fixtures.root_uploaded true
                 "gallery" (Some "Beach Day.JPG") =
               (Gallery.USuccess "Beach_Day.JPG" "Beach_Day.JPG.webp",
                snd (Gallery.api_upload ExtraFixtures.gen_images true true Fixtures.root_uploaded
                       true "gallery" (Some "Beach Day.JPG")))) by (vm_compute; reflexivity).
  assert (H2 : (Py.mem (Py.lower (snd (Py.splitext "Beach_Day.JPG"))) IMAGE_EXTS ||
                Py.mem (Py.lower (snd (Py.splitext "Beach_Day.JPG"))) VIDEO_EXTS) = true)
    by reflexivity.
  refine (conj H1 _).
  destruct (upload_then_listed _ _ _ _ _ _ _ _ _ _ H1 H2)
    as (_ & _ & _ & ev & it & Hev & Hin & Hfn & _).
  exact (ex_intro _ ev (ex_intro _ it (conj Hev (conj Hin Hfn)))).
Defined.

(** X19: A successful upload of a file without an image or video extension is saved in [Media] but never appears in the event's media list. *)
Theorem upload_unrecognised_not_listed (g : Gallery.gen_oracle) (sv mk : bool) (f : fsys)
  (is_admin : bool) (path raw fn tn : string) (f' : fsys) :
  Gallery.api_upload g sv mk f is_admin path (Some raw) = (Gallery.USuccess fn tn, f') ->
  let ext := Py.lower (snd (Py.splitext fn)) in
  Py.mem ext IMAGE_EXTS || Py.mem ext VIDEO_EXTS = false ->
  exists ev m' th',
    dict_get path (Admin.load_events (events_file f')) = Some ev /\
    get_node f' (folder ev) = Some (DirNode (Some m') th') /\ In fn m' /\
    (forall it, In it (get_event_media_list f' ev) -> filename it <> fn).
Proof.
  intros H; cbv zeta; intros Hext.
  destruct (GalleryFacts.upload_success_shape g sv mk f is_admin path raw fn tn f' H)
    as (ev & m & th & Ev & _ & Gn & _ & _ & _ & _ & _ & _ & _ & Hf').
  cbv zeta in Hf'.
  set (th1 := match th with TDir l => TDir l | _ => TDir [] end) in Hf'.
  set (th2 := if Gallery.generate_thumb_for_any g fn && negb (tnode_has th1 tn)
              then Sync.tnode_add th1 tn else th1) in Hf'.
  set (m' := if Py.mem fn m then m else m ++ [fn]) in Hf'.
  assert (Gn' : get_node f' (folder ev) = Some (DirNode (Some m') th2)).
  { subst f'. now rewrite SyncFacts.get_node_set_same, Gn. }
  exists ev, m', th2. split; [subst f'; exact Ev|]. split; [exact Gn'|]. split.
  { subst m'. destruct (Py.mem fn m) eqn:E; [now apply mem_In|].
    apply in_or_app. right. now left. }
  intros it. unfold get_event_media_list. rewrite Gn'. intros Hi Hname.
  destruct (GalleryFacts.lister_items_In_inv _ _ _ Hi) as (x & _ & Hx).
  pose proof (GalleryFacts.lister_item_filename _ _ _ Hx) as Hfx. rewrite Hname in Hfx.
  subst x. unfold lister_item in Hx. cbv zeta in Hx. rewrite Hext in Hx. discriminate.
Qed.

(** X19 witness. *)
Lemma upload_unrecognised_not_listed_witness :
  Gallery.api_upload ExtraFixtures.gen_images true true Fixtures.root_uploaded true "gallery"
    (Some "notes.txt") =
    (Gallery.USuccess "notes.txt" "notes.txt.webp",
     snd (Gallery.api_upload ExtraFixtures.gen_images true true Fixtures.root_uploaded true
            "gallery" (Some "notes.txt"))) /\
  (Py.mem (Py.lower (snd (Py.splitext "notes.txt"))) IMAGE_EXTS ||
   Py.mem (Py.lower (snd (Py.splitext "notes.txt"))) VIDEO_EXTS) = false /\
  exists ev m' th',
    get_node (snd (Gallery.api_upload ExtraFixtures.gen_images true true Fixtures.root_uploaded
                     true "gallery" (Some "notes.txt"))) (folder ev) =
      Some (DirNode (Some m') th') /\ In "notes.txt" m'.
Proof.
  assert (H1 : Gallery.api_upload ExtraFixtures.gen_images true true Fixtures.root_uploaded true
                 "gallery" (Some "notes.txt") =
               (Gallery.USuccess "notes.txt" "notes.txt.webp",
                snd (Gallery.api_upload ExtraFixtures.gen_images true true Fixtures.root_uploaded
                       true "gallery" (Some "notes.txt")))) by (vm_compute; reflexivity).
  assert (H2 : (Py.mem (Py.lower (snd (Py.splitext "notes.txt"))) IMAGE_EXTS ||
                Py.mem (Py.lower (snd (Py.splitext "notes.txt"))) VIDEO_EXTS) = false)
    by reflexivity.
  refine (conj H1 (conj H2 _)).
  destruct (upload_unrecognised_not_listed _ _ _ _ _ _ _ _ _ _ H1 H2)
    as (ev & m' & th' & _ & Hg & Hin & _).
  exact (ex_intro _ ev (ex_intro _ m' (ex_intro _ th' (conj Hg Hin)))).
Defined.

(** X20: In an event folder with [Media] and [Thumbnail] directories where neither the secured name nor its [.webp] thumbnail exists yet, uploading a file and then deleting it by the same name restores the file system exactly, when both removals succeed. *)
Theorem upload_then_delete_restores (g : Gallery.gen_oracle) (sv mk : bool)
  (rm_ok : string -> bool) (f : fsys) (is_admin : bool) (path raw fn tn : string) (f' : fsys)
  (ev : event) (m l : list string) :
  dict_get path (Admin.load_events (events_file f)) = Some ev ->
  get_node f (folder ev) = Some (DirNode (Some m) (TDir l)) ->
  ~ In (Werkzeug.secure_filename raw) m ->
  ~ In (Werkzeug.secure_filename raw ++ ".webp")%string l ->
  rm_ok (Werkzeug.secure_filename raw) = true ->
  rm_ok (Werkzeug.secure_filename raw ++ ".webp")%string = true ->
  Gallery.api_upload g sv mk f is_admin path (Some raw) = (Gallery.USuccess fn tn, f') ->
  Gallery.api_delete rm_ok f' is_admin path (Some raw) = (Gallery.USuccess fn tn, f).
Proof.
  intros Ev Gn Hm Hl Hr1 Hr2 H.
  destruct (GalleryFacts.upload_success_shape g sv mk f is_admin path raw fn tn f' H)
    as (ev' & m0 & th & Ev' & Pn & Gn0 & _ & -> & Hraw & _ & -> & Hne & -> & Hf').
  rewrite Ev in Ev'. injection Ev' as <-. rewrite Gn in Gn0. injection Gn0 as <- <-.
  cbv zeta in Hf'. set (fn := Werkzeug.secure_filename raw) in *.
  rewrite (GalleryFacts.mem_false _ _ Hm) in Hf'.
  unfold tnode_has in Hf'. cbn [tnames] in Hf'.
  rewrite (GalleryFacts.mem_false _ _ Hl) in Hf'. cbn [negb] in Hf'.
  assert (Gn' : forall th2, get_node (set_node f (folder ev) (DirNode (Some (m ++ [fn])) th2))
                  (folder ev) = Some (DirNode (Some (m ++ [fn])) th2)).
  { intros th2. now rewrite SyncFacts.get_node_set_same, Gn. }
  unfold Gallery.api_delete. cbn [negb]. subst f'.
  replace (events_file (set_node _ _ _)) with (events_file f) by reflexivity. rewrite Ev.
  apply String.eqb_neq in Hraw. rewrite Hraw. cbv zeta. rewrite Pn. cbn [negb].
  fold fn. rewrite Gn'.
  assert (Hmem : Py.mem fn (m ++ [fn]) = true).
  { apply mem_In, in_or_app. right. now left. }
  apply String.eqb_neq in Hne. rewrite Hne, Hmem, Hr1. cbn [orb andb negb].
  rewrite GalleryFacts.drop_app_last by exact Hm.
  destruct (Gallery.generate_thumb_for_any g fn); cbn [andb].
  - unfold tnode_has, Sync.tnode_add, Sync.tnode_remove, tnames.
    assert (Ht : Py.mem (fn ++ ".webp")%string (l ++ [(fn ++ ".webp")%string]) = true).
    { apply mem_In, in_or_app. right. now left. }
    rewrite Ht, Hr2, GalleryFacts.drop_app_last by exact Hl.
    rewrite GalleryFacts.set_node_twice. now rewrite GalleryFacts.set_node_same.
  - unfold tnode_has, tnames. rewrite (GalleryFacts.mem_false _ _ Hl).
    rewrite GalleryFacts.set_node_twice. now rewrite GalleryFacts.set_node_same.
Qed.

(** X20 witness. *)
Lemma upload_then_delete_restores_witness :
  Gallery.api_upload ExtraFixtures.gen_images true true Fixtures.root_uploaded true "gallery"
    (Some "b.png") =
    (Gallery.USuccess "b.png" "b.png.webp",
     snd (Gallery.api_upload ExtraFixtures.gen_images true true Fixtures.root_uploaded true
            "gallery" (Some "b.png"))) /\
  Gallery.api_delete (fun _ => true)
    (snd (Gallery.api_upload ExtraFixtures.gen_images true true Fixtures.root_uploaded true
            "gallery" (Some "b.png"))) true "gallery" (Some "b.png") =
    (Gallery.USuccess "b.png" "b.png.webp", Fixtures.root_uploaded).
Proof.
  assert (H1 : dict_get "gallery" (Admin.load_events (events_file Fixtures.root_uploaded)) =
               Some Fixtures.gallery) by reflexivity.
  assert (H2 : get_node Fixtures.root_uploaded (folder Fixtures.gallery) =
               Some (DirNode (Some ["photo.jpg"]) (TDir ["photo.jpg.webp"]))) by reflexivity.
  assert (H3 : ~ In (Werkzeug.secure_filename "b.png") ["photo.jpg"])
    by (vm_compute; intros [H|[]]; discriminate H).
  assert (H4 : ~ In (Werkzeug.secure_filename "b.png" ++ ".webp")%string ["photo.jpg.webp"])
    by (vm_compute; intros [H|[]]; discriminate H).
  assert (H5 : (fun _ : string => true) (Werkzeug.secure_filename "b.png") = true)
    by reflexivity.
  assert (H6 : (fun _ : string => true) (Werkzeug.secure_filename "b.png" ++ ".webp")%string
               = true) by reflexivity.
  assert (H7 : Gallery.api_upload ExtraFixtures.gen_images true true Fixtures.root_uploaded true
                 "gallery" (Some "b.png") =
               (Gallery.USuccess "b.png" "b.png.webp",
                snd (Gallery.api_upload ExtraFixtures.gen_images true true Fixtures.root_uploaded
                       true "gallery" (Some "b.png")))) by (vm_compute; reflexivity).
  exact (conj H7 (upload_then_delete_restores ExtraFixtures.gen_images true true (fun _ => true)
    Fixtures.root_uploaded true "gallery" "b.png" "b.png" "b.png.webp" _ Fixtures.gallery
    ["photo.jpg"] ["photo.jpg.webp"] H1 H2 H3 H4 H5 H6 H7)).
Defined.

(** X21: [api_delete] cannot remove a media file whose name [secure_filename] changes (for example one with a space): the file stays in [Media]. *)
Theorem delete_keeps_unsanitised_name (rm_ok : string -> bool) (f : fsys) (is_admin : bool)
  (path raw : string) (r : Gallery.uresp) (f' : fsys) (ev : event) (m : list string)
  (th : tnode) :
  dict_get path (Admin.load_events (events_file f)) = Some ev ->
  get_node f (folder ev) = Some (DirNode (Some m) th) ->
  In raw m -> Werkzeug.secure_filename raw <> raw ->
  Gallery.api_delete rm_ok f is_admin path (Some raw) = (r, f') ->
  exists m' th', get_node f' (folder ev) = Some (DirNode (Some m') th') /\ In raw m'.
Proof.
  intros Ev Gn Hin Hsec.
  unfold Gallery.api_delete. rewrite Ev.
  destruct is_admin; cbn [negb]; [|intros [= _ <-]; eauto].
  destruct (String.eqb raw ""); [intros [= _ <-]; eauto|]. cbv zeta.
  destruct (Gallery.plain_name (folder ev)); cbn [negb]; [|intros [= _ <-]; eauto].
  rewrite Gn.
  set (fn := Werkzeug.secure_filename raw) in *.
  set (mex := String.eqb fn "" || Py.mem fn m).
  assert (Hkeep : In raw (if mex then filter (fun y => negb (String.eqb y fn)) m else m)).
  { destruct mex; [|exact Hin]. apply filter_In. split; [exact Hin|].
    destruct (String.eqb_spec raw fn); [congruence|reflexivity]. }
  destruct (mex && _); [intros [= _ <-]; eauto|].
  assert (Hs : forall th2, get_node (set_node f (folder ev)
     (DirNode (Some (if mex then filter (fun y => negb (String.eqb y fn)) m else m)) th2))
     (folder ev) = Some (DirNode (Some (if mex then filter (fun y => negb (String.eqb y fn)) m else m)) th2)).
  { intros th2. now rewrite SyncFacts.get_node_set_same, Gn. }
  destruct (tnode_has th _); [destruct (rm_ok _)|]; intros [= _ <-]; eauto.
Qed.

(** X21 witness. *)
Lemma delete_keeps_unsanitised_name_witness :
  Werkzeug.secure_filename "my photo.jpg" <> "my photo.jpg" /\
  exists m' th',
    get_node (snd (Gallery.api_delete (fun _ => true) ExtraFixtures.root_spaced true "gallery"
                     (Some "my photo.jpg"))) "E" = Some (DirNode (Some m') th') /\
    In "my photo.jpg" m'.
Proof.
  assert (H1 : dict_get "gallery" (Admin.load_events (events_file ExtraFixtures.root_spaced)) =
               Some Fixtures.gallery) by reflexivity.
  assert (H2 : get_node ExtraFixtures.root_spaced (folder Fixtures.gallery) =
               Some (DirNode (Some ["my photo.jpg"]) (TDir ["my photo.jpg.webp"])))
    by reflexivity.
  assert (H3 : In "my photo.jpg" ["my photo.jpg"]) by (left; reflexivity).
  assert (H4 : Werkzeug.secure_filename "my photo.jpg" <> "my photo.jpg")
    by (vm_compute; discriminate).
  assert (H5 : Gallery.api_delete (fun _ => true) ExtraFixtures.root_spaced true "gallery"
                 (Some "my photo.jpg") =
               (fst (Gallery.api_delete (fun _ => true) ExtraFixtures.root_spaced true "gallery"
                       (Some "my photo.jpg")),
                snd (Gallery.api_delete (fun _ => true) ExtraFixtures.root_spaced true "gallery"
                       (Some "my photo.jpg")))) by (vm_compute; reflexivity).
  exact (conj H4 (delete_keeps_unsanitised_name (fun _ => true) ExtraFixtures.root_spaced true
    "gallery" "my photo.jpg" _ _ Fixtures.gallery ["my photo.jpg"] _ H1 H2 H3 H4 H5)).
Defined.



